(** * Stock volatility web app: the data pipeline of [app.py]

    [app.py] downloads daily closing prices, keeps the Friday rows, turns
    them into weekly percentage returns, trains a two-state Gaussian HMM
    on the returns (hmmlearn), decodes the most likely state path and
    names the two states "High Vol" and "Low Vol" by comparing the sample
    variance of the returns inside each state.

    The development follows the script top to bottom:
    - [Float]    the cells of the table model: idealised numbers with inf
                 and NaN;
    - [Frame]    a pandas DataFrame: an index and named, typed columns;
    - [Hmm]      the interface of the hmmlearn estimator the script calls;
    - [App]      lines 34-57 of the script, stage by stage;
    - [Spec]     the notions of the specification, in its words;
    - [Binary64] lines 38-39 and 50-55 in IEEE 754 binary64, the
                 arithmetic the script runs on;
    - [Standin]  a small estimator and tables to run the script on;
    - [Chart]    lines 62-87, the figure built from the weekly table;
    - the properties, after all definitions. *)

From Stdlib Require Import ZArith QArith Qcanon List Bool Lia SpecFloat.
From stdpp Require Import base option list gmap strings fin_maps sorting pretty.

Local Open Scope Z_scope.

(** ** Idealised numbers

    In the table model a float cell is an exact rational, or one of the
    three special values.  Rounding, overflow and the sign of zero are
    left out; division by zero, inf - inf, and the rule that every ordered
    comparison with NaN is false are kept.  This model carries the
    statements about the shape of the tables, about NaN and about the form
    of the comparison; the numbers the script really computes are those
    of [Binary64] below. *)
Module Float.

Inductive fval : Type :=
  | Fin (q : Qc)
  | PInf
  | NInf
  | NaN.

#[global] Instance fval_eq_dec : EqDecision fval.
Proof. solve_decision. Defined.

Definition of_Z (z : Z) : fval := Fin (Qc_of_Z z).

Definition is_nan (x : fval) : bool :=
  match x with NaN => true | _ => false end.

(** Sign of a rational: -1, 0 or 1. *)
Definition Qc_sgn (q : Qc) : Z :=
  if decide (0 < q)%Qc then 1 else if decide (q < 0)%Qc then -1 else 0.

Definition fneg (x : fval) : fval :=
  match x with
  | Fin q => Fin (- q)%Qc
  | PInf => NInf
  | NInf => PInf
  | NaN => NaN
  end.

Definition fadd (x y : fval) : fval :=
  match x, y with
  | NaN, _ | _, NaN => NaN
  | Fin a, Fin b => Fin (a + b)%Qc
  | PInf, NInf | NInf, PInf => NaN
  | PInf, _ | _, PInf => PInf
  | NInf, _ | _, NInf => NInf
  end.

Definition fsub (x y : fval) : fval := fadd x (fneg y).

(** The infinity with the given sign; sign 0 gives NaN (inf * 0). *)
Definition inf_of_sgn (s : Z) : fval :=
  match s with
  | Zpos _ => PInf
  | Zneg _ => NInf
  | Z0 => NaN
  end.

Definition sgn (x : fval) : Z :=
  match x with
  | Fin q => Qc_sgn q
  | PInf => 1
  | NInf => -1
  | NaN => 0
  end.

Definition fmul (x y : fval) : fval :=
  match x, y with
  | NaN, _ | _, NaN => NaN
  | Fin a, Fin b => Fin (a * b)%Qc
  | _, _ => inf_of_sgn (sgn x * sgn y)
  end.

Definition fdiv (x y : fval) : fval :=
  match x, y with
  | NaN, _ | _, NaN => NaN
  | Fin a, Fin b =>
      if decide (b = 0%Qc) then inf_of_sgn (Qc_sgn a) else Fin (a / b)%Qc
  | Fin _, _ => Fin 0%Qc
  | _, Fin b => if decide (b = 0%Qc) then x else inf_of_sgn (sgn x * Qc_sgn b)
  | _, _ => NaN
  end.

(** [x > y] of numpy: false as soon as one side is NaN. *)
Definition fgt (x y : fval) : bool :=
  match x, y with
  | NaN, _ | _, NaN => false
  | Fin a, Fin b => bool_decide (b < a)%Qc
  | PInf, PInf | NInf, NInf => false
  | PInf, _ | _, NInf => true
  | NInf, _ | _, PInf => false
  end.

(** [x == y] of numpy on floats: NaN is not equal to itself. *)
Definition feq (x y : fval) : bool :=
  match x, y with
  | NaN, _ | _, NaN => false
  | _, _ => bool_decide (x = y)
  end.

Definition fsum (xs : list fval) : fval := foldl fadd (Fin 0%Qc) xs.

End Float.
Export Float.

(** ** Exceptions

    The Python exceptions the modelled operations raise. *)
Inductive error : Type :=
  | KeyError (label : string)
  | ValueError (msg : string)
  | TypeError (msg : string).

Inductive result (A : Type) : Type :=
  | Ok (a : A)
  | Err (e : error).
Arguments Ok {A} a.
Arguments Err {A} e.

#[global] Instance error_eq_dec : EqDecision error.
Proof. solve_decision. Defined.

#[global] Instance result_eq_dec `{EqDecision A} : EqDecision (result A).
Proof. solve_decision. Defined.

#[global] Instance result_ret : MRet result := λ A a, Ok a.
#[global] Instance result_bind : MBind result := λ A B k r,
  match r with
  | Ok a => k a
  | Err e => Err e
  end.

#[global] Instance result_fmap : FMap result := λ A B f r,
  match r with
  | Ok a => Ok (f a)
  | Err e => Err e
  end.

Definition is_ok {A} (r : result A) : bool :=
  match r with Ok _ => true | Err _ => false end.

(** ** pandas DataFrame

    A frame is its index (one timestamp per row, here a day number counted
    from 1970-01-01) and its columns by label.  Every column has a dtype;
    the script meets float64, integer and categorical columns.  The order
    of the columns, which only matters for display, is not kept, and a
    frame with two columns of one label is not representable. *)
Module Frame.

(** A value of a categorical column: an integer category, or a category
    that was renamed to a string. *)
Inductive catval : Type :=
  | CInt (z : Z)
  | CStr (s : string).

#[global] Instance catval_eq_dec : EqDecision catval.
Proof. solve_decision. Defined.

Inductive column : Type :=
  | FloatCol (xs : list fval)
  | IntCol (zs : list Z)
  | CatCol (vs : list catval).

Record frame : Type := mkFrame {
  index : list Z;
  columns : gmap string column;
}.

Definition nrows (f : frame) : nat := length (index f).

Definition col_length (c : column) : nat :=
  match c with
  | FloatCol xs => length xs
  | IntCol zs => length zs
  | CatCol vs => length vs
  end.

(** Selection by a boolean mask of the same length. *)
Fixpoint mask_list {A} (m : list bool) (xs : list A) : list A :=
  match m, xs with
  | b :: m', x :: xs' => if b then x :: mask_list m' xs' else mask_list m' xs'
  | _, _ => []
  end.

Definition col_mask (m : list bool) (c : column) : column :=
  match c with
  | FloatCol xs => FloatCol (mask_list m xs)
  | IntCol zs => IntCol (mask_list m zs)
  | CatCol vs => CatCol (mask_list m vs)
  end.

Definition col_drop (n : nat) (c : column) : column :=
  match c with
  | FloatCol xs => FloatCol (drop n xs)
  | IntCol zs => IntCol (drop n zs)
  | CatCol vs => CatCol (drop n vs)
  end.

(** [df[k]] *)
Definition getitem (f : frame) (k : string) : result column :=
  match columns f !! k with
  | Some c => Ok c
  | None => Err (KeyError k)
  end.

(** [df[k] = values], values given by position: a new column, or the
    replacement of the column of that label. *)
Definition setitem (f : frame) (k : string) (c : column) : result frame :=
  if decide (col_length c = nrows f)
  then Ok (mkFrame (index f) (<[k := c]> (columns f)))
  else Err (ValueError ("Length of values (" +:+ pretty (col_length c)
                        +:+ ") does not match length of index ("
                        +:+ pretty (nrows f) +:+ ")")).

(** [df[mask]] with a boolean array. *)
Definition mask_rows (f : frame) (m : list bool) : result frame :=
  if decide (length m = nrows f)
  then Ok (mkFrame (mask_list m (index f)) (col_mask m <$> columns f))
  else Err (ValueError ("Item wrong length " +:+ pretty (length m)
                        +:+ " instead of " +:+ pretty (nrows f) +:+ ".")).

(** [df[[k1, ..., kn]]], for distinct labels. *)
Fixpoint select_cols (cols : gmap string column) (ks : list string)
  : result (gmap string column) :=
  match ks with
  | [] => Ok ∅
  | k :: ks' =>
      match cols !! k with
      | Some c => rest ← select_cols cols ks'; mret (<[k := c]> rest)
      | None => Err (KeyError k)
      end
  end.

Definition select (f : frame) (ks : list string) : result frame :=
  cols ← select_cols (columns f) ks; mret (mkFrame (index f) cols).

(** [df.iloc[n:]] *)
Definition iloc_from (n : nat) (f : frame) : frame :=
  mkFrame (drop n (index f)) (col_drop n <$> columns f).

(** The float64 view of a numeric column. *)
Definition col_floats (c : column) : result (list fval) :=
  match c with
  | FloatCol xs => Ok xs
  | IntCol zs => Ok (of_Z <$> zs)
  | CatCol _ => Err (TypeError "category dtype does not support this operation")
  end.

(** [series == k] for an integer [k], entry by entry. *)
Definition col_eq_int (c : column) (k : Z) : list bool :=
  match c with
  | FloatCol xs => (λ x, feq x (of_Z k)) <$> xs
  | IntCol zs => (λ z, z =? k) <$> zs
  | CatCol vs => (λ v, bool_decide (v = CInt k)) <$> vs
  end.

(** [series.shift(1)]: every entry moves one row down, the first row
    becomes NaN, the last entry falls off. *)
Definition shift1 (xs : list fval) : list fval := take (length xs) (NaN :: xs).

(** [series.pct_change()]: [series / series.shift(1) - 1], here without
    rounding; [Binary64.pct_change] is the float64 computation.  (pandas
    before 3.0 first forward-fills NaN entries; prices here carry none.) *)
Definition pct_change (xs : list fval) : list fval :=
  zip_with (λ x prev, fsub (fdiv x prev) (of_Z 1)) xs (shift1 xs).

(** [series * k] *)
Definition scale (k : Z) (xs : list fval) : list fval :=
  (λ x, fmul x (of_Z k)) <$> xs.

(** [series.var()]: NaN entries are skipped, the divisor is the count
    minus one (ddof = 1), and fewer than two entries give NaN.  Here
    without rounding; [Binary64.var] is the float64 computation. *)
Definition var (xs : list fval) : fval :=
  let vals := filter (λ x, is_nan x = false) xs in
  let count := length vals in
  if decide (count ≤ 1)%nat then NaN
  else
    let avg := fdiv (fsum vals) (of_Z (Z.of_nat count)) in
    let sqr := (λ x, let d := fsub avg x in fmul d d) <$> vals in
    fdiv (fsum sqr) (of_Z (Z.of_nat (count - 1))).

(** [series.values.reshape(-1, 1)]: one row of one feature per entry. *)
Definition reshape_col (xs : list fval) : list (list fval) := (λ x, [x]) <$> xs.

(** [pd.Categorical(states).rename_categories(labels)]: every category
    found in the dict takes its new name, the others pass through. *)
Definition rename_categories (labels : gmap Z string) (states : list Z) : column :=
  CatCol ((λ s, match labels !! s with
                | Some l => CStr l
                | None => CInt s
                end) <$> states).

(** [index.dayofweek]: Monday is 0, Sunday is 6; day 0 was a Thursday. *)
Definition dayofweek (t : Z) : Z := (t + 3) mod 7.

End Frame.
Export Frame.

(** ** The hmmlearn estimator

    The script builds [hmm.GaussianHMM] with four keyword arguments, calls
    [fit] and then [predict].  Training and decoding are the library's;
    the script sees them through this interface.  The library draws its
    random numbers from the generator that scikit-learn's
    [check_random_state] derives from [random_state]: a fresh generator
    seeded with the integer, or the global numpy generator for [None]. *)
Module Hmm.

Record Config : Type := mkConfig {
  n_components : Z;
  covariance_type : string;
  n_iter : Z;
  random_state : option Z;
}.

#[global] Instance Config_eq_dec : EqDecision Config.
Proof. solve_decision. Defined.

Class Library : Type := {
  rng : Type;
  GaussianHMM : Type;
  seeded : Z → rng;
  fit : Config → rng → list (list fval) → result GaussianHMM;
  predict : GaussianHMM → list (list fval) → result (list Z);
}.

Definition check_random_state `{Library} (rs : option Z) (ambient : rng) : rng :=
  match rs with
  | Some seed => seeded seed
  | None => ambient
  end.

(** What the script asks of the library, in order. *)
Inductive call : Type :=
  | CallFit (cfg : Config) (X : list (list fval))
  | CallPredict (X : list (list fval)).

#[global] Instance call_eq_dec : EqDecision call.
Proof. solve_decision. Defined.

End Hmm.
Export Hmm.

(** ** Script steps

    A step of the script yields the library calls it made and either a
    value or the exception that stopped it. *)
Definition prog (A : Type) : Type := (list call * result A)%type.

#[global] Instance prog_ret : MRet prog := λ A a, ([], Ok a).
#[global] Instance prog_bind : MBind prog := λ A B k p,
  match p with
  | (log, Ok a) => let '(log', r) := k a in (log ++ log', r)
  | (log, Err e) => (log, Err e)
  end.

Definition lift {A} (r : result A) : prog A := ([], r).
Definition calls {A} (p : prog A) : list call := p.1.
Definition outcome {A} (p : prog A) : result A := p.2.

(** ** The script, lines 34-57 *)
Module App.

(** Line 46: the keyword arguments of [hmm.GaussianHMM]. *)
Definition config : Config :=
  {| n_components := 2;
     covariance_type := "full";
     n_iter := 10000;
     random_state := Some 2606 |}.

Section Script.
Context `{lib : Library}.

(** The text typed into the "Ticker" box. *)
Variable ticker : string.

(** Line 35: [df['weekday'] = df.index.dayofweek] *)
Definition add_weekday (df : frame) : result frame :=
  setitem df "weekday" (IntCol (dayofweek <$> index df)).

(** Line 37: [fridays = df[df['weekday'] == 4].copy()].  The copy keeps
    later writes to [fridays] away from [df]; frames here are values and
    share nothing. *)
Definition select_fridays (df : frame) : result frame :=
  wd ← getitem df "weekday";
  mask_rows df (col_eq_int wd 4).

(** Line 38: [fridays['returns'] = fridays[ticker].pct_change() * 100] *)
Definition add_returns (fridays : frame) : result frame :=
  px ← getitem fridays ticker;
  xs ← col_floats px;
  setitem fridays "returns" (FloatCol (scale 100 (pct_change xs))).

(** Line 39: [fridays = fridays[[ticker, 'returns']].iloc[1:]] *)
Definition keep_returns (fridays : frame) : result frame :=
  sel ← select fridays [ticker; "returns"];
  mret (iloc_from 1 sel).

(** Lines 35-39. *)
Definition prepare (df : frame) : result frame :=
  df1 ← add_weekday df;
  f1 ← select_fridays df1;
  f2 ← add_returns f1;
  keep_returns f2.

(** Line 44: [returns_array = fridays['returns'].values.reshape(-1, 1)] *)
Definition returns_array (fridays : frame) : result (list (list fval)) :=
  c ← getitem fridays "returns";
  xs ← col_floats c;
  mret (reshape_col xs).

(** Lines 46-47: [model = hmm.GaussianHMM(...)], [model.fit(returns_array)].
    [ambient] is the state of the global numpy generator. *)
Definition hmm_fit (cfg : Config) (ambient : rng) (X : list (list fval))
  : prog GaussianHMM :=
  ([CallFit cfg X], fit cfg (check_random_state (random_state cfg) ambient) X).

(** Line 48: [states = model.predict(returns_array)] *)
Definition hmm_predict (m : GaussianHMM) (X : list (list fval)) : prog (list Z) :=
  ([CallPredict X], predict m X).

(** Lines 50-51: [fridays[states == k]['returns'].var()] *)
Definition state_var (fridays : frame) (states : list Z) (k : Z) : result fval :=
  sub ← mask_rows fridays ((λ s, s =? k) <$> states);
  c ← getitem sub "returns";
  xs ← col_floats c;
  mret (var xs).

(** Lines 50-55. *)
Definition regime_labels (fridays : frame) (states : list Z)
  : result (gmap Z string) :=
  var_0 ← state_var fridays states 0;
  var_1 ← state_var fridays states 1;
  mret (if fgt var_0 var_1
        then {[ 0 := "High Vol"; 1 := "Low Vol" ]}
        else {[ 1 := "High Vol"; 0 := "Low Vol" ]}).

(** Line 57:
    [fridays['state'] = pd.Categorical(states).rename_categories(labels)] *)
Definition attach_state (fridays : frame) (states : list Z)
    (labels : gmap Z string) : result frame :=
  setitem fridays "state" (rename_categories labels states).

(** What a run leaves behind for the charts: the trained estimator, the
    decoded path, the label of each state and the weekly table. *)
Record output : Type := mkOutput {
  model : GaussianHMM;
  states : list Z;
  labels : gmap Z string;
  table : frame;
}.

(** Lines 35-57 with the estimator configured by [cfg]. *)
Definition run (cfg : Config) (ambient : rng) (df : frame) : prog output :=
  fridays ← lift (prepare df);
  X ← lift (returns_array fridays);
  model ← hmm_fit cfg ambient X;
  states ← hmm_predict model X;
  labels ← lift (regime_labels fridays states);
  fridays' ← lift (attach_state fridays states labels);
  mret (mkOutput model states labels fridays').

(** The script: [df] is what [yf.download(ticker, start=...)['Close']]
    returned. *)
Definition app (ambient : rng) (df : frame) : prog output :=
  run config ambient df.

End Script.
End App.
Export App.

(** ** The specification's vocabulary

    The notions the specification uses, written from its words, to compare
    the script against. *)
Module Spec.

(** The observations whose decoded state is [k]. *)
Definition restrict {A} (obs : list A) (states : list Z) (k : Z) : list A :=
  (filter (λ p, p.2 = k) (zip obs states)).*1.

(** A state is visited when it occurs in the path. *)
Definition visited (states : list Z) (k : Z) : Prop := k ∈ states.

(** The rows of a price table that fall on a Friday. *)
Definition friday_rows (rows : list (Z * fval)) : list (Z * fval) :=
  filter (λ r, dayofweek r.1 = 4) rows.

(** The labels the script itself gives to columns; a ticker symbol is
    none of them. *)
Definition reserved : list string := ["weekday"; "returns"; "state"].

(** The downloaded table holds the closing prices [prices], one per row,
    under the ticker's label. *)
Definition closes (ticker : string) (df : frame) (prices : list fval) : Prop :=
  columns df !! ticker = Some (FloatCol prices) ∧ length prices = nrows df.

End Spec.
Export Spec.

(** ** IEEE 754 binary64

    numpy's float64 is IEEE 754 binary64, and every operation on it is
    rounded to nearest, ties to even.  [SpecFloat] of the Standard Library
    specifies exactly that: the format has 53 bits of precision and
    exponents up to 1024, and a value is a zero, an infinity, NaN or
    [S754_finite s m e], the number (-1)^s * m * 2^e.

    The table model above computes with idealised numbers, which is enough
    for what holds whatever the arithmetic: shapes, lengths, NaN and the
    form of the comparison.  What the script computes to the last bit, the
    returns of lines 38-39 and the variances of lines 50-55, is modelled
    here, on columns given as lists of binary64 values.

    [var] follows pandas' own [nanops.nanvar], which is what [Series.var]
    runs unless the optional bottleneck package replaces it, and [sum]
    follows numpy's pairwise summation of a contiguous array. *)
Module Binary64.

Definition f64 : Type := spec_float.

#[global] Instance f64_eq_dec : EqDecision f64.
Proof. solve_decision. Defined.

Definition nan : f64 := S754_nan.
Definition zero : f64 := S754_zero false.

(** The float64 nearest to an integer. *)
Definition of_Z (z : Z) : f64 := binary_normalize 53 1024 z 0 false.

Definition add : f64 → f64 → f64 := SFadd 53 1024.
Definition sub : f64 → f64 → f64 := SFsub 53 1024.
Definition mul : f64 → f64 → f64 := SFmul 53 1024.
Definition div : f64 → f64 → f64 := SFdiv 53 1024.

(** [x > y]: false as soon as one side is NaN. *)
Definition gt (x y : f64) : bool := SFltb y x.

Definition is_nan (x : f64) : bool :=
  match x with S754_nan => true | _ => false end.

(** NaN, or a value whose sign bit is clear: +0.0, a positive number or
    +inf. *)
Definition not_negative (x : f64) : bool :=
  match x with
  | S754_nan => true
  | S754_zero s | S754_infinity s | S754_finite s _ _ => negb s
  end.

(** A finite number other than zero. *)
Definition finite_nonzero (x : f64) : bool :=
  match x with S754_finite _ _ _ => true | _ => false end.

(** The float64 a decimal literal [n]e-[k] denotes, for [n] below 2^53 in
    absolute value and [k] up to 22: both [n] and 10^[k] are float64
    numbers, and their quotient is rounded once. *)
Definition decimal (n : Z) (k : Z) : f64 := div (of_Z n) (of_Z (10 ^ k)).

(** [series.shift(1)] *)
Definition shift1 (xs : list f64) : list f64 := take (length xs) (nan :: xs).

(** [series.pct_change()]: [series / series.shift(1) - 1].  (pandas before
    3.0 first forward-fills NaN entries; the statements below are about
    prices without NaN.) *)
Definition pct_change (xs : list f64) : list f64 :=
  zip_with (λ x prev, sub (div x prev) (of_Z 1)) xs (shift1 xs).

(** [series * k] *)
Definition scale (k : Z) (xs : list f64) : list f64 :=
  (λ x, mul x (of_Z k)) <$> xs.

(** Lines 38-39 and 44 on the Friday closes: the returns handed to the
    estimator. *)
Definition weekly_returns (closes : list f64) : list f64 :=
  drop 1 (scale 100 (pct_change closes)).

(** The specification's formula, [100 * (cur - prev) / prev], evaluated
    in float64 in the order it is written. *)
Definition pct_return (prev cur : f64) : f64 :=
  div (mul (of_Z 100) (sub cur prev)) prev.

(** The unrolled loop of numpy's pairwise sum: eight running sums, each
    taking every eighth entry, as long as eight more entries are left. *)
Fixpoint sum_unrolled (r : list f64) (xs : list f64) : list f64 * list f64 :=
  match xs with
  | a0 :: a1 :: a2 :: a3 :: a4 :: a5 :: a6 :: a7 :: xs' =>
      sum_unrolled (zip_with add r [a0; a1; a2; a3; a4; a5; a6; a7]) xs'
  | _ => (r, xs)
  end.

(** A block of at most 128 entries: fewer than eight are added from left
    to right, starting from 0.0; otherwise the eight running sums, which
    start as the first eight entries, are added as a tree and the entries
    left over are added to the result one by one.  (There are always
    eight running sums, [sum_unrolled_length]: the last case of the match
    does not occur.) *)
Definition sum_block (xs : list f64) : f64 :=
  if decide (length xs < 8)%nat then foldl add zero xs
  else
    match sum_unrolled (take 8 xs) (drop 8 xs) with
    | ([r0; r1; r2; r3; r4; r5; r6; r7], rest) =>
        foldl add (add (add (add r0 r1) (add r2 r3))
                       (add (add r4 r5) (add r6 r7))) rest
    | _ => nan
    end.

(** numpy's [pairwise_sum]: a longer array is cut in two near the middle,
    at a multiple of eight, and the sums of the halves are added.  [fuel]
    bounds the depth of the cutting; the length of the array is more than
    enough, and more fuel changes nothing ([pairwise_sum_fuel]). *)
Fixpoint pairwise_sum (fuel : nat) (xs : list f64) : f64 :=
  match fuel with
  | O => sum_block xs
  | S fuel' =>
      if decide (length xs ≤ 128)%nat then sum_block xs
      else
        let n2 := (length xs / 2 - (length xs / 2) mod 8)%nat in
        add (pairwise_sum fuel' (take n2 xs)) (pairwise_sum fuel' (drop n2 xs))
  end.

(** [values.sum()]: the reduction starts from its identity, 0.0, to which
    the pairwise sum of the array is added.  (Which zero a sum of zeros
    is, +0.0 or -0.0, differs between numpy versions; [var] does not
    depend on it.) *)
Definition sum (xs : list f64) : f64 := add zero (pairwise_sum (length xs) xs).

(** [series.var()], pandas' [nanvar] with [ddof = 1]: NaN entries are
    masked out (set to 0 and not counted); the mean is the sum over the
    count; the squared deviations from the mean are summed and divided by
    the count minus one; a count of at most one gives NaN. *)
Definition var (xs : list f64) : f64 :=
  let count := length (filter (λ x, is_nan x = false) xs) in
  if decide (count ≤ 1)%nat then nan
  else
    let values := (λ x, if is_nan x then zero else x) <$> xs in
    let avg := div (sum values) (of_Z (Z.of_nat count)) in
    let sqr := (λ x, if is_nan x then zero
                     else let d := sub avg x in mul d d) <$> xs in
    div (sum sqr) (of_Z (Z.of_nat (count - 1))).

(** Lines 50-51 on the returns column:
    [fridays[states == k]['returns'].var()]. *)
Definition state_var (returns : list f64) (states : list Z) (k : Z)
  : result f64 :=
  if decide (length states = length returns)
  then Ok (var (mask_list ((λ s, s =? k) <$> states) returns))
  else Err (ValueError ("Item wrong length " +:+ pretty (length states)
                        +:+ " instead of " +:+ pretty (length returns)
                        +:+ ".")).

(** Lines 50-55. *)
Definition regime_labels (returns : list f64) (states : list Z)
  : result (gmap Z string) :=
  var_0 ← state_var returns states 0;
  var_1 ← state_var returns states 1;
  mret (if gt var_0 var_1
        then {[ 0 := "High Vol"; 1 := "Low Vol" ]}
        else {[ 1 := "High Vol"; 0 := "Low Vol" ]}).

End Binary64.

(** ** A stand-in estimator

    A small instance of the library interface, to run the script on
    examples.  It is not hmmlearn: [fit] validates the array as hmmlearn
    does and then keeps the generator it was given as its only parameter,
    and [predict] calls a week turbulent when its return exceeds 2 percent
    in absolute value; which of the two state numbers stands for
    "turbulent" depends on the generator, as the numbering of hmmlearn's
    states depends on its initialisation. *)
Module Standin.

Definition turbulent (row : list fval) : bool :=
  match row with
  | [x] => fgt x (of_Z 2) || fgt (of_Z (-2)) x
  | _ => false
  end.

Definition decode (m : Z) (X : list (list fval)) : list Z :=
  (λ row, ((if turbulent row then 1 else 0) + m) mod 2) <$> X.

(** What hmmlearn's [fit] checks before it trains: scikit-learn's
    [check_array] refuses an array without rows, and the k-means
    initialisation of the means refuses fewer rows than states. *)
Definition validate (cfg : Config) (X : list (list fval)) : result unit :=
  if decide (length X = 0%nat)
  then Err (ValueError "Found array with 0 sample(s) (shape=(0, 1)) while a minimum of 1 is required.")
  else if decide (Z.of_nat (length X) < n_components cfg)
  then Err (ValueError ("n_samples=" +:+ pretty (length X)
                        +:+ " should be >= n_clusters="
                        +:+ pretty (n_components cfg) +:+ "."))
  else Ok tt.

Definition strict : Library :=
  {| rng := Z;
     GaussianHMM := Z;
     seeded := λ seed, seed;
     fit := λ cfg g X, _ ← validate cfg X; Ok g;
     predict := λ m X, Ok (decode m X) |}.

(** Daily closes of three weeks; day 16437 is Friday 2015-01-02. *)
Definition daily (ticker : string) : frame :=
  {| index := [16437; 16440; 16441; 16442; 16443; 16444;
               16447; 16448; 16449; 16450; 16451];
     columns := {[ ticker := FloatCol (of_Z <$>
               [80; 81; 82; 81; 83; 100;
                101; 99; 98; 97; 75]) ]} |}.

(** A download that ends on the second Friday: one weekly return. *)
Definition short (ticker : string) : frame :=
  {| index := [16437; 16440; 16441; 16442; 16443; 16444];
     columns := {[ ticker := FloatCol (of_Z <$>
               [80; 81; 82; 81; 83; 100]) ]} |}.

(** A download without a single row. *)
Definition empty (ticker : string) : frame :=
  {| index := []; columns := {[ ticker := FloatCol [] ]} |}.

(** The script's configuration with the seed left out. *)
Definition unseeded : Config :=
  {| n_components := 2;
     covariance_type := "full";
     n_iter := 10000;
     random_state := None |}.

(** A weekly table as it stands after line 39. *)
Definition weekly (ticker : string) (prices : list Z) (returns : list Z) : frame :=
  {| index := (λ i, 16444 + 7 * Z.of_nat i) <$> seq 0 (length returns);
     columns := {[ ticker := FloatCol (of_Z <$> prices);
                   "returns" := FloatCol (of_Z <$> returns) ]} |}.

End Standin.


(** ** The chart, lines 62-87

    The figure is a list of plotly traces.  The loop draws the weekly
    returns as one two-point line per pair of consecutive rows, coloured
    after the state of the earlier row; two traces without points follow
    and carry the legend. *)
Module Chart.

(** What can stop the chart stage: an exception of a frame operation, or
    the IndexError of a positional access past the end. *)
Inductive exception : Type :=
  | FrameError (e : error)
  | IndexError (msg : string).

Inductive drawn (A : Type) : Type :=
  | Done (a : A)
  | Raise (e : exception).
Arguments Done {A} a.
Arguments Raise {A} e.

#[global] Instance exception_eq_dec : EqDecision exception.
Proof. solve_decision. Defined.

#[global] Instance drawn_eq_dec `{EqDecision A} : EqDecision (drawn A).
Proof. solve_decision. Defined.

#[global] Instance drawn_ret : MRet drawn := λ A a, Done a.
#[global] Instance drawn_bind : MBind drawn := λ A B k r,
  match r with
  | Done a => k a
  | Raise e => Raise e
  end.

Definition of_frame {A} (r : result A) : drawn A :=
  match r with
  | Ok a => Done a
  | Err e => Raise (FrameError e)
  end.

(** One entry of a column, whatever its dtype. *)
Inductive cell : Type :=
  | CellFloat (v : fval)
  | CellInt (z : Z)
  | CellCat (c : catval).

#[global] Instance cell_eq_dec : EqDecision cell.
Proof. solve_decision. Defined.

Definition col_cells (c : column) : list cell :=
  match c with
  | FloatCol xs => CellFloat <$> xs
  | IntCol zs => CellInt <$> zs
  | CatCol vs => CellCat <$> vs
  end.

(** [series.iloc[i]] *)
Definition iloc (c : column) (i : nat) : drawn cell :=
  match col_cells c !! i with
  | Some v => Done v
  | None => Raise (IndexError "single positional indexer is out-of-bounds")
  end.

(** [value == s] for a string [s]. *)
Definition cell_eq_str (v : cell) (s : string) : bool :=
  match v with
  | CellCat (CStr t) => bool_decide (t = s)
  | _ => false
  end.

(** [seq[i:j]]: the entries from position [i] up to, not including, [j];
    a slice never raises and is cut at the end of the sequence. *)
Definition slice {A} (i j : nat) (l : list A) : list A :=
  take (j - i) (drop i l).

Record Line : Type := mkLine {
  color : string;
  width : Z;
}.

(** [go.Scatter(...)] with the keyword arguments the script uses; an
    argument that is not given is [None]. *)
Record Scatter : Type := mkScatter {
  x : list (option Z);
  y : list (option cell);
  mode : string;
  line : Line;
  showlegend : option bool;
  name : option string;
}.

Record Layout : Type := mkLayout {
  height : option Z;
  xaxis_title : option string;
  yaxis_title : option string;
}.

Record Figure : Type := mkFigure {
  data : list Scatter;
  layout : Layout;
}.

#[global] Instance Line_eq_dec : EqDecision Line.
Proof. solve_decision. Defined.
#[global] Instance Scatter_eq_dec : EqDecision Scatter.
Proof. solve_decision. Defined.
#[global] Instance Layout_eq_dec : EqDecision Layout.
Proof. solve_decision. Defined.
#[global] Instance Figure_eq_dec : EqDecision Figure.
Proof. solve_decision. Defined.

(** Lines 65-72: the trace of one pass of the loop. *)
Definition segment (fridays : frame) (i : nat) : drawn Scatter :=
  state ← of_frame (getitem fridays "state");
  v ← iloc state i;
  let color := if cell_eq_str v "High Vol" then "yellow" else "blue" in
  returns ← of_frame (getitem fridays "returns");
  mret {| x := Some <$> slice i (i + 2) (index fridays);
          y := Some <$> slice i (i + 2) (col_cells returns);
          mode := "lines";
          line := {| color := color; width := 2 |};
          showlegend := Some false;
          name := None |}.

(** Lines 64-72: [for i in range(...)], each pass adding its trace to the
    ones the figure already holds. *)
Fixpoint add_segments (fridays : frame) (range : list nat) (fig : list Scatter)
  : drawn (list Scatter) :=
  match range with
  | [] => Done fig
  | i :: range' =>
      trace ← segment fridays i;
      add_segments fridays range' (fig ++ [trace])
  end.

(** Lines 74-85: a trace without points, for the legend. *)
Definition legend_entry (color name : string) : Scatter :=
  {| x := [None];
     y := [None];
     mode := "lines";
     line := {| color := color; width := 2 |};
     showlegend := None;
     name := Some name |}.

(** Lines 63-87.  [range(len(fridays) - 1)] is empty for a table without
    rows, as the truncated subtraction makes it here. *)
Definition chart (fridays : frame) : drawn Figure :=
  fig ← add_segments fridays (seq 0 (nrows fridays - 1)) [];
  let fig := fig ++ [legend_entry "yellow" "High Volatility"] in
  let fig := fig ++ [legend_entry "blue" "Low Volatility"] in
  mret {| data := fig;
          layout := {| height := Some 450;
                       xaxis_title := Some "Date";
                       yaxis_title := Some "Returns" |} |}.

(** A weekly table as it stands after line 57. *)
Definition labelled (ticker : string) (prices returns : list Z)
    (state : list string) : frame :=
  {| index := (λ i, 16444 + 7 * Z.of_nat i) <$> seq 0 (length returns);
     columns := {[ ticker := FloatCol (of_Z <$> prices);
                   "returns" := FloatCol (of_Z <$> returns);
                   "state" := CatCol (CStr <$> state) ]} |}.

End Chart.

(** * Properties *)

(** ** Comparisons and boolean masks *)

Lemma fgt_nan_l y : fgt NaN y = false.
Proof. reflexivity. Qed.

Lemma fgt_nan_r x : fgt x NaN = false.
Proof. by destruct x. Qed.

Lemma fgt_irrefl x : fgt x x = false.
Proof.
  destruct x; simpl; try done.
  apply bool_decide_eq_false. apply (irreflexivity Qclt).
Qed.

Lemma fgt_Fin a b : fgt (Fin a) (Fin b) = true ↔ (b < a)%Qc.
Proof. simpl. apply bool_decide_eq_true. Qed.

Lemma fgt_asym x y : fgt x y = true → fgt y x = false.
Proof.
  destruct x, y; simpl; try done.
  rewrite bool_decide_eq_true, bool_decide_eq_false.
  intros H1 H2. exact (irreflexivity Qclt _ (Qclt_trans _ _ _ H1 H2)).
Qed.

Lemma mask_list_nil_r {A} (m : list bool) : mask_list m (@nil A) = [].
Proof. by destruct m. Qed.

Lemma mask_list_restrict {A} (obs : list A) (states : list Z) (k : Z) :
  mask_list ((λ s, s =? k) <$> states) obs = restrict obs states k.
Proof.
  unfold restrict. revert obs.
  induction states as [|s states IH]; intros [|x obs]; simpl; try done.
  rewrite filter_cons. simpl.
  destruct (Z.eqb_spec s k) as [->|Hne].
  - rewrite decide_True by done. simpl. by rewrite IH.
  - rewrite decide_False by done. apply IH.
Qed.

Lemma restrict_unvisited {A} (obs : list A) (states : list Z) (k : Z) :
  ¬ visited states k → restrict obs states k = [].
Proof.
  unfold visited, restrict. revert obs.
  induction states as [|s states IH]; intros [|x obs] Hk; simpl; try done.
  rewrite filter_cons. simpl.
  rewrite decide_False by (intros ->; apply Hk; left).
  apply IH. intros Hin. apply Hk. by right.
Qed.

Lemma length_mask_list {A B} (m : list bool) (xs : list A) (ys : list B) :
  length xs = length ys → length (mask_list m xs) = length (mask_list m ys).
Proof.
  revert xs ys. induction m as [|b m IH]; intros [|x xs] [|y ys] H;
    simpl in *; try done.
  injection H as H. destruct b; simpl; auto.
Qed.

Lemma mask_list_zip {A B} (m : list bool) (xs : list A) (ys : list B) :
  zip (mask_list m xs) (mask_list m ys) = mask_list m (zip xs ys).
Proof.
  revert xs ys. induction m as [|b m IH]; intros [|x xs] [|y ys];
    simpl; try done.
  - destruct b; simpl; [done | by destruct (mask_list m xs)].
  - destruct b; simpl; by rewrite IH.
Qed.

Lemma mask_list_filter {A} (f : A → bool) (xs : list A) :
  mask_list (f <$> xs) xs = filter (λ x, f x = true) xs.
Proof.
  induction xs as [|x xs IH]; csimpl; [done|].
  rewrite filter_cons. destruct (f x) eqn:E.
  - rewrite decide_True by done. by rewrite IH.
  - rewrite decide_False by done. apply IH.
Qed.

(** ** The labelling step, lines 50-55 *)

Section Labelling.
Variables (fridays : frame) (rs : list fval) (states : list Z).
Hypothesis Hreturns : columns fridays !! "returns" = Some (FloatCol rs).
Hypothesis Hlength : length states = nrows fridays.

(** The variance the script computes for state [k] is pandas' [var] of
    the returns in the rows decoded as [k]. *)
Lemma state_var_restrict k :
  state_var fridays states k = Ok (var (restrict rs states k)).
Proof using Hreturns Hlength.
  unfold state_var, mask_rows.
  rewrite decide_True by (by rewrite length_fmap).
  cbn. unfold getitem. cbn. rewrite lookup_fmap, Hreturns. cbn.
  by rewrite mask_list_restrict.
Qed.

Lemma regime_labels_cases :
  regime_labels fridays states =
    Ok (if fgt (var (restrict rs states 0)) (var (restrict rs states 1))
        then {[ 0 := "High Vol"; 1 := "Low Vol" ]}
        else {[ 1 := "High Vol"; 0 := "Low Vol" ]}).
Proof using Hreturns Hlength.
  unfold regime_labels. by rewrite !state_var_restrict.
Qed.
End Labelling.

Lemma var_nil : var [] = NaN.
Proof. reflexivity. Qed.

(** ** binary64 comparisons *)

Lemma gt_nan_l y : Binary64.gt Binary64.nan y = false.
Proof. by destruct y. Qed.

Lemma gt_nan_r x : Binary64.gt x Binary64.nan = false.
Proof. by destruct x. Qed.

Lemma SFcompare_Lt_asym (x y : spec_float) :
  SFcompare x y = Some Lt → SFcompare y x = Some Gt.
Proof.
  destruct x as [sx|sx| |sx mx ex], y as [sy|sy| |sy my ey]; cbn;
    try done; try (by destruct sx); try (by destruct sy);
    try (by destruct sx, sy).
  pose proof (Z.compare_antisym ey ex) as He.
  pose proof (Pos.compare_cont_antisym mx my Eq) as Hm. cbn in Hm.
  destruct sx, sy; try done;
    destruct (ex ?= ey), (ey ?= ex); try done;
    destruct (Pos.compare_cont Eq mx my), (Pos.compare_cont Eq my mx);
    done.
Qed.

Lemma gt_asym x y : Binary64.gt x y = true → Binary64.gt y x = false.
Proof.
  unfold Binary64.gt, SFltb. intros H.
  destruct (SFcompare y x) as [[]|] eqn:E; try done.
  by rewrite (SFcompare_Lt_asym _ _ E).
Qed.

Lemma gt_irrefl x : Binary64.gt x x = false.
Proof.
  destruct (Binary64.gt x x) eqn:E; [|done].
  by rewrite (gt_asym _ _ E) in E.
Qed.

(** ** Lines 50-55 in binary64 *)

(** The variance the script computes for state [k] is [var] of the
    returns in the rows decoded as [k]. *)
Lemma binary64_state_var (returns : list Binary64.f64) (states : list Z) (k : Z) :
  length states = length returns →
  Binary64.state_var returns states k
  = Ok (Binary64.var (restrict returns states k)).
Proof.
  intros Hlen. unfold Binary64.state_var.
  by rewrite decide_True, mask_list_restrict.
Qed.

Lemma binary64_regime_labels (returns : list Binary64.f64) (states : list Z) :
  length states = length returns →
  Binary64.regime_labels returns states
  = Ok (if Binary64.gt (Binary64.var (restrict returns states 0))
                       (Binary64.var (restrict returns states 1))
        then {[ 0 := "High Vol"; 1 := "Low Vol" ]}
        else {[ 1 := "High Vol"; 0 := "Low Vol" ]}).
Proof.
  intros Hlen. unfold Binary64.regime_labels.
  by rewrite !binary64_state_var.
Qed.



(** On small integers nothing is rounded: the returns 1, -1, 0 decoded
    as state 0 have variance 1, the returns 5, -5 decoded as state 1 have
    variance 50, and state 1 is "High Vol". *)
Example labels_on_integers :
  let returns := Binary64.of_Z <$> [1; -1; 5; -5; 0] in
  Binary64.state_var returns [0; 0; 1; 1; 0] 0 = Ok (Binary64.of_Z 1) ∧
  Binary64.state_var returns [0; 0; 1; 1; 0] 1 = Ok (Binary64.of_Z 50) ∧
  Binary64.regime_labels returns [0; 0; 1; 1; 0]
  = Ok {[ 1 := "High Vol"; 0 := "Low Vol" ]}.
Proof. cbv zeta. repeat split; vm_compute; reflexivity. Qed.

(** The returns 1.55, 0.15 decoded as state 0 and 0.14, 1.54 decoded as
    state 1: both computed variances are 0.98, the comparison is false and
    state 1 is "High Vol". *)
Example labels_on_a_computed_tie :
  let returns := [Binary64.decimal 155 2; Binary64.decimal 15 2;
                  Binary64.decimal 14 2; Binary64.decimal 154 2] in
  Binary64.state_var returns [0; 0; 1; 1] 0 = Ok (Binary64.decimal 98 2) ∧
  Binary64.state_var returns [0; 0; 1; 1] 1 = Ok (Binary64.decimal 98 2) ∧
  Binary64.regime_labels returns [0; 0; 1; 1]
  = Ok {[ 1 := "High Vol"; 0 := "Low Vol" ]}.
Proof. cbv zeta. repeat split; vm_compute; reflexivity. Qed.

(** With idealised arithmetic: state 1 has the larger variance (50 against
    1) and is the one named "High Vol". *)
Example labels_example :
  regime_labels (Standin.weekly "AAPL" [1; 2; 3; 4; 5] [1; -1; 5; -5; 0])
    [0; 0; 1; 1; 0]
  = Ok {[ 1 := "High Vol"; 0 := "Low Vol" ]}.
Proof. vm_compute. reflexivity. Qed.

(** C9. Whatever the decoded path (of the table's length), the labelling
    step ends without an exception and gives both states a label; the two
    labels are distinct, one "High Vol" and one "Low Vol"; and whenever
    [var_0 > var_1] does not hold, in particular on a tie and as soon as
    one variance is NaN, state 1 is "High Vol" and state 0 is "Low Vol". *)
Theorem labels_total_injective
    (fridays : frame) (rs : list fval) (states : list Z) :
  columns fridays !! "returns" = Some (FloatCol rs) →
  length states = nrows fridays →
  ∃ var_0 var_1 lab,
    state_var fridays states 0 = Ok var_0 ∧
    state_var fridays states 1 = Ok var_1 ∧
    regime_labels fridays states = Ok lab ∧
    dom lab = {[ 0; 1 ]} ∧
    (∃ l0 l1, lab !! 0 = Some l0 ∧ lab !! 1 = Some l1 ∧ l0 ≠ l1 ∧
       (l0 = "High Vol" ∧ l1 = "Low Vol" ∨ l0 = "Low Vol" ∧ l1 = "High Vol")) ∧
    (fgt var_0 var_1 = false ∨ var_0 = var_1 ∨ var_0 = NaN ∨ var_1 = NaN →
       lab !! 1 = Some "High Vol" ∧ lab !! 0 = Some "Low Vol").
Proof.
  intros Hret Hlen.
  exists (var (restrict rs states 0)), (var (restrict rs states 1)).
  eexists. split; [|split; [|split]];
    [apply (state_var_restrict _ _ _ Hret Hlen) ..
    |apply (regime_labels_cases _ _ _ Hret Hlen)|].
  set (v0 := var (restrict rs states 0)). set (v1 := var (restrict rs states 1)).
  split; [|split].
  - destruct (fgt v0 v1); rewrite dom_insert_L, dom_singleton_L; set_solver.
  - destruct (fgt v0 v1).
    + exists "High Vol", "Low Vol". by repeat split; [..|left].
    + exists "Low Vol", "High Vol". by repeat split; [..|right].
  - intros H.
    assert (fgt v0 v1 = false) as ->; [|by split].
    destruct H as [H|[H|[H|H]]]; [done|rewrite H..].
    + apply fgt_irrefl.
    + apply fgt_nan_l.
    + apply fgt_nan_r.
Qed.

Lemma labels_total_injective_witness :
  let fridays := Standin.weekly "AAPL" [1; 2; 3; 4] [3; -3; 3; -3] in
  let states := [0; 0; 1; 1] in
  ∃ lab, regime_labels fridays states = Ok lab ∧
    dom lab = {[ 0; 1 ]} ∧
    lab !! 1 = Some "High Vol" ∧ lab !! 0 = Some "Low Vol".
Proof.
  destruct (labels_total_injective
              (Standin.weekly "AAPL" [1; 2; 3; 4] [3; -3; 3; -3])
              (of_Z <$> [3; -3; 3; -3]) [0; 0; 1; 1])
    as (var_0 & var_1 & lab & H0 & H1 & Hlab & Hdom & _ & Helse);
    [reflexivity..|].
  exists lab. split; [done|]. split; [done|].
  apply Helse. right. left.
  assert (state_var (Standin.weekly "AAPL" [1; 2; 3; 4] [3; -3; 3; -3])
            [0; 0; 1; 1] 0
          = state_var (Standin.weekly "AAPL" [1; 2; 3; 4] [3; -3; 3; -3])
              [0; 0; 1; 1] 1) as Htie by (by apply (bool_decide_unpack _)).
  rewrite H0, H1 in Htie. by injection Htie.
Defined.

(** A tie: both states have sample variance 18, and state 1 is the one
    named "High Vol". *)
Example labels_tie_example :
  let fridays := Standin.weekly "AAPL" [1; 2; 3; 4] [3; -3; 3; -3] in
  state_var fridays [0; 0; 1; 1] 0 = state_var fridays [0; 0; 1; 1] 1 ∧
  regime_labels fridays [0; 0; 1; 1] = Ok {[ 1 := "High Vol"; 0 := "Low Vol" ]}.
Proof. split; vm_compute; reflexivity. Qed.

(** C2, as the script behaves.  When the decoded path never visits state 0
    or never visits state 1, the labelling step raises nothing: the
    variance of the unvisited state is NaN, the comparison is false, and
    state 1 is named "High Vol" and state 0 "Low Vol". *)
Theorem unvisited_state_default_labels
    (fridays : frame) (rs : list fval) (states : list Z) :
  columns fridays !! "returns" = Some (FloatCol rs) →
  length states = nrows fridays →
  ¬ visited states 0 ∨ ¬ visited states 1 →
  (∃ k, (k = 0 ∨ k = 1) ∧ state_var fridays states k = Ok NaN) ∧
  regime_labels fridays states = Ok {[ 1 := "High Vol"; 0 := "Low Vol" ]}.
Proof.
  intros Hret Hlen Hun.
  rewrite (regime_labels_cases _ _ _ Hret Hlen).
  destruct Hun as [H|H]; split.
  - exists 0. split; [by left|].
    by rewrite (state_var_restrict _ _ _ Hret Hlen), restrict_unvisited.
  - by rewrite (restrict_unvisited _ _ 0 H), var_nil, fgt_nan_l.
  - exists 1. split; [by right|].
    by rewrite (state_var_restrict _ _ _ Hret Hlen), restrict_unvisited.
  - by rewrite (restrict_unvisited _ _ 1 H), var_nil, fgt_nan_r.
Qed.

Lemma unvisited_state_default_labels_witness :
  let fridays := Standin.weekly "AAPL" [1; 2; 3; 4; 5] [1; -1; 5; -5; 0] in
  let states := [1; 1; 1; 1; 1] in
  (∃ k, (k = 0 ∨ k = 1) ∧ state_var fridays states k = Ok NaN) ∧
  regime_labels fridays states = Ok {[ 1 := "High Vol"; 0 := "Low Vol" ]}.
Proof.
  apply (unvisited_state_default_labels _ (of_Z <$> [1; -1; 5; -5; 0]));
    [reflexivity | reflexivity |].
  left. unfold visited. by apply (bool_decide_unpack (_ ∉ _)).
Defined.

(** C2 as the specification words it fails: here state 1 is never visited,
    yet the labelling step returns labels instead of raising. *)
Lemma unvisited_state_is_labelled :
  let fridays := Standin.weekly "AAPL" [1; 2; 3; 4; 5] [1; -1; 5; -5; 0] in
  let states := [0; 0; 0; 0; 0] in
  ¬ visited states 1 ∧
  regime_labels fridays states = Ok {[ 1 := "High Vol"; 0 := "Low Vol" ]} ∧
  ¬ ∃ e, regime_labels fridays states = Err e.
Proof.
  assert (regime_labels
            (Standin.weekly "AAPL" [1; 2; 3; 4; 5] [1; -1; 5; -5; 0])
            [0; 0; 0; 0; 0]
          = Ok {[ 1 := "High Vol"; 0 := "Low Vol" ]}) as Heq
    by (vm_compute; reflexivity).
  cbv zeta. split; [|split].
  - unfold visited. by apply (bool_decide_unpack (_ ∉ _)).
  - exact Heq.
  - intros [e He]. rewrite Heq in He. discriminate.
Qed.

(** ** The Friday table, lines 35-37 *)

Lemma not_reserved (ticker : string) :
  ticker ∉ reserved →
  ticker ≠ "weekday" ∧ ticker ≠ "returns" ∧ ticker ≠ "state".
Proof.
  unfold reserved. intros H.
  repeat split; intros ->; apply H; repeat constructor.
Qed.

Lemma add_weekday_ok (df : frame) :
  add_weekday df
  = Ok (mkFrame (index df)
          (<["weekday" := IntCol (dayofweek <$> index df)]> (columns df))).
Proof.
  unfold add_weekday, setitem. cbn [col_length].
  by rewrite decide_True by (by rewrite length_fmap).
Qed.

Lemma select_fridays_ok (idx : list Z) (cols : gmap string column) :
  let wd := IntCol (dayofweek <$> idx) in
  let m := col_eq_int wd 4 in
  select_fridays (mkFrame idx (<["weekday" := wd]> cols))
  = Ok (mkFrame (mask_list m idx) (col_mask m <$> <["weekday" := wd]> cols)).
Proof.
  intros wd m. unfold select_fridays, getitem. cbn [columns].
  rewrite lookup_insert_eq. cbn. unfold mask_rows, nrows. cbn [index columns].
  by rewrite decide_True by (by rewrite !length_fmap).
Qed.

Lemma mask_friday_rows (idx : list Z) (prices : list fval) :
  mask_list (col_eq_int (IntCol (dayofweek <$> idx)) 4) (zip idx prices)
  = friday_rows (zip idx prices).
Proof.
  unfold friday_rows. cbn [col_eq_int]. revert prices.
  induction idx as [|t idx IH]; intros [|p prices]; csimpl; try done.
  rewrite filter_cons. cbn [fst].
  destruct (Z.eqb_spec (dayofweek t) 4) as [Heq|Hne].
  - rewrite decide_True by done. by rewrite IH.
  - rewrite decide_False by done. apply IH.
Qed.

(** C8. For a downloaded table with the closing prices under the ticker's
    label, the table the script keeps at line 37 holds exactly the rows
    whose date is a Friday (weekday 4), each with its downloaded closing
    price and in the order of the download: a row is in it if and only if
    it is a downloaded row dated on a Friday, so a week without a Friday
    price adds no row. *)
Theorem fridays_are_the_friday_rows
    (ticker : string) (df : frame) (prices : list fval) :
  ticker ∉ reserved →
  closes ticker df prices →
  ∃ df1 fridays ps,
    add_weekday df = Ok df1 ∧
    select_fridays df1 = Ok fridays ∧
    columns fridays !! ticker = Some (FloatCol ps) ∧
    length ps = nrows fridays ∧
    zip (index fridays) ps = friday_rows (zip (index df) prices) ∧
    zip (index fridays) ps `sublist_of` zip (index df) prices ∧
    ∀ row, row ∈ zip (index fridays) ps
           ↔ dayofweek row.1 = 4 ∧ row ∈ zip (index df) prices.
Proof.
  intros Hticker [Hcol Hlen].
  destruct (not_reserved _ Hticker) as (Hwd & _ & _).
  set (m := col_eq_int (IntCol (dayofweek <$> index df)) 4).
  assert (zip (mask_list m (index df)) (mask_list m prices)
          = friday_rows (zip (index df) prices)) as Hrows
    by (rewrite mask_list_zip; apply mask_friday_rows).
  eexists _, _, (mask_list m prices).
  split; [apply add_weekday_ok|].
  split; [apply select_fridays_ok|]. cbn [columns index nrows].
  split; [|split; [|split; [|split]]].
  - by rewrite lookup_fmap, lookup_insert_ne, Hcol.
  - by apply length_mask_list.
  - exact Hrows.
  - fold m. rewrite Hrows. apply sublist_filter.
  - intros row. fold m. rewrite Hrows. unfold friday_rows.
    by rewrite list_elem_of_filter.
Qed.

Lemma fridays_are_the_friday_rows_witness :
  let df := Standin.daily "AAPL" in
  ∃ df1 fridays ps,
    add_weekday df = Ok df1 ∧
    select_fridays df1 = Ok fridays ∧
    columns fridays !! "AAPL" = Some (FloatCol ps) ∧
    zip (index fridays) ps
    = [(16437, of_Z 80); (16444, of_Z 100); (16451, of_Z 75)].
Proof.
  destruct (fridays_are_the_friday_rows "AAPL" (Standin.daily "AAPL")
              (of_Z <$> [80; 81; 82; 81; 83; 100; 101; 99; 98; 97; 75]))
    as (df1 & fridays & ps & H1 & H2 & H3 & _ & H4 & _).
  - unfold reserved. by apply (bool_decide_unpack (_ ∉ _)).
  - split; reflexivity.
  - exists df1, fridays, ps. by rewrite H4.
Defined.

(** Of the eleven trading days of the example, the three Fridays remain. *)
Example fridays_example :
  (f ← add_weekday (Standin.daily "AAPL"); select_fridays f)
  = Ok {| index := [16437; 16444; 16451];
          columns := {[ "AAPL" := FloatCol (of_Z <$> [80; 100; 75]);
                        "weekday" := IntCol [4; 4; 4] ]} |}.
Proof. vm_compute. reflexivity. Qed.

(** ** The weekly returns, lines 38-44 *)

Lemma length_shift1 (xs : list fval) : length (shift1 xs) = length xs.
Proof. unfold shift1. rewrite length_take. cbn [length]. lia. Qed.

Lemma length_pct_change (xs : list fval) : length (pct_change xs) = length xs.
Proof.
  unfold pct_change. rewrite length_zip_with_l_eq; [done|].
  by rewrite length_shift1.
Qed.

Lemma length_scale (k : Z) (xs : list fval) : length (scale k xs) = length xs.
Proof. apply length_fmap. Qed.

Lemma lookup_shift1_S (xs : list fval) (t : nat) (x : fval) :
  xs !! S t = Some x → shift1 xs !! S t = xs !! t.
Proof.
  intros Hx. unfold shift1.
  rewrite lookup_take_lt by (by apply lookup_lt_Some in Hx). done.
Qed.

Lemma lookup_returns_S (xs : list fval) (t : nat) (prev cur : fval) :
  xs !! t = Some prev → xs !! S t = Some cur →
  scale 100 (pct_change xs) !! S t
  = Some (fmul (fsub (fdiv cur prev) (of_Z 1)) (of_Z 100)).
Proof.
  intros Hprev Hcur. unfold scale, pct_change.
  rewrite list_lookup_fmap, lookup_zip_with.
  by rewrite Hcur, (lookup_shift1_S _ _ _ Hcur), Hprev.
Qed.

(** The first return has no earlier price and is NaN. *)
Lemma lookup_returns_0 (xs : list fval) (x : fval) :
  xs !! 0%nat = Some x → scale 100 (pct_change xs) !! 0%nat = Some NaN.
Proof. destruct xs as [|y xs]; [done|]. intros _. by destruct y. Qed.

(** The weekly table as it stands after line 39. *)
Lemma prepare_ok (ticker : string) (df : frame) (prices : list fval) :
  ticker ∉ reserved →
  closes ticker df prices →
  let m := col_eq_int (IntCol (dayofweek <$> index df)) 4 in
  prepare ticker df
  = Ok {| index := drop 1 (mask_list m (index df));
          columns :=
            {[ ticker := FloatCol (drop 1 (mask_list m prices));
               "returns" :=
                 FloatCol (drop 1 (scale 100 (pct_change (mask_list m prices)))) ]} |}.
Proof.
  intros Hticker [Hcol Hlen] m.
  destruct (not_reserved _ Hticker) as (Hwd & Hrt & _).
  unfold prepare. rewrite add_weekday_ok. cbn [mbind result_bind].
  rewrite select_fridays_ok. cbn [mbind result_bind]. fold m.
  unfold add_returns, getitem. cbn [columns].
  rewrite lookup_fmap, lookup_insert_ne, Hcol by done.
  cbn [fmap option_fmap option_map col_mask col_floats mbind result_bind].
  unfold setitem, nrows. cbn [col_length index columns].
  rewrite decide_True
    by (rewrite length_scale, length_pct_change; by apply length_mask_list).
  cbn [mbind result_bind]. unfold keep_returns, select.
  cbn [columns index select_cols].
  rewrite lookup_insert_ne, lookup_fmap, lookup_insert_ne, Hcol by done.
  rewrite lookup_insert_eq.
  cbn [fmap option_fmap option_map col_mask mbind mret result_bind result_ret].
  unfold iloc_from. cbn [index columns]. f_equal. f_equal.
  by rewrite !fmap_insert, fmap_empty, insert_empty.
Qed.

Lemma mask_list_fmap {A B} (f : A → B) (m : list bool) (xs : list A) :
  mask_list m (f <$> xs) = f <$> mask_list m xs.
Proof.
  revert xs. induction m as [|b m IH]; intros [|x xs]; csimpl; try done.
  destruct b; csimpl; by rewrite IH.
Qed.

(** ** Lines 38-44 in binary64 *)

Lemma length_weekly_returns (closes : list Binary64.f64) :
  length (Binary64.weekly_returns closes) = (length closes - 1)%nat.
Proof.
  unfold Binary64.weekly_returns, Binary64.scale, Binary64.pct_change,
    Binary64.shift1.
  rewrite length_drop, length_fmap, length_zip_with_l_eq; [done|].
  rewrite length_take. cbn [length]. lia.
Qed.

Lemma lookup_weekly_returns (closes : list Binary64.f64) (t : nat)
    (p_prev p_cur : Binary64.f64) :
  closes !! t = Some p_prev → closes !! S t = Some p_cur →
  Binary64.weekly_returns closes !! t
  = Some (Binary64.mul (Binary64.sub (Binary64.div p_cur p_prev)
                                     (Binary64.of_Z 1))
                       (Binary64.of_Z 100)).
Proof.
  intros Hprev Hcur.
  unfold Binary64.weekly_returns, Binary64.scale, Binary64.pct_change,
    Binary64.shift1.
  rewrite lookup_drop, list_lookup_fmap, lookup_zip_with. cbn [Nat.add].
  rewrite Hcur, lookup_take_lt by (by apply lookup_lt_Some in Hcur).
  change ((Binary64.nan :: closes) !! S t) with (closes !! t).
  by rewrite Hprev.
Qed.

(** C4, as the script computes it.  For Friday closes P_0, ..., P_M, none
    of them NaN, the returns handed to the estimator are exactly M, one
    fewer than the closes (the first, undefined one is dropped), and the
    return at position t (counted from 1, so index t - 1) is
    (P_t / P_(t-1) - 1) * 100 in float64: a division, a subtraction and a
    multiplication, each rounded. *)
Theorem weekly_returns_pct_change (closes : list Binary64.f64) (M : nat) :
  length closes = S M →
  Forall (λ p, Binary64.is_nan p = false) closes →
  length (Binary64.weekly_returns closes) = M ∧
  ∀ t p_prev p_cur,
    closes !! t = Some p_prev → closes !! S t = Some p_cur →
    Binary64.weekly_returns closes !! t
    = Some (Binary64.mul (Binary64.sub (Binary64.div p_cur p_prev)
                                       (Binary64.of_Z 1))
                         (Binary64.of_Z 100)).
Proof.
  intros Hlen _. split.
  - rewrite length_weekly_returns, Hlen. lia.
  - intros t p_prev p_cur. apply lookup_weekly_returns.
Qed.

(** The Friday closes 100, 110, 99 give the two returns
    10.000000000000009 and -9.999999999999998. *)
Lemma weekly_returns_pct_change_witness :
  let closes := Binary64.of_Z <$> [100; 110; 99] in
  length (Binary64.weekly_returns closes) = 2%nat ∧
  Binary64.weekly_returns closes !! 0%nat
  = Some (Binary64.mul (Binary64.sub (Binary64.div (Binary64.of_Z 110)
                                                   (Binary64.of_Z 100))
                                     (Binary64.of_Z 1))
                       (Binary64.of_Z 100)) ∧
  Binary64.weekly_returns closes
  = [S754_finite false 5629499534213125 (-49);
     S754_finite true 5629499534213119 (-49)].
Proof.
  destruct (weekly_returns_pct_change (Binary64.of_Z <$> [100; 110; 99]) 2)
    as [Hlen Hret].
  - reflexivity.
  - by apply (bool_decide_unpack _).
  - cbv zeta. split; [exact Hlen|]. split.
    + by apply Hret.
    + vm_compute. reflexivity.
Defined.

(** C4 as the specification words it fails.  From a close of 100 to a
    close of 110 the formula 100 * (P_t - P_(t-1)) / P_(t-1) gives 10, in
    exact arithmetic and evaluated in float64 alike; the script, which
    divides first, hands the estimator 10.000000000000009, the fifth
    float64 above 10. *)
Lemma weekly_return_is_not_the_formula :
  let closes := Binary64.of_Z <$> [100; 110] in
  fdiv (fmul (of_Z 100) (fsub (of_Z 110) (of_Z 100))) (of_Z 100) = of_Z 10 ∧
  Binary64.pct_return (Binary64.of_Z 100) (Binary64.of_Z 110)
  = Binary64.of_Z 10 ∧
  Binary64.weekly_returns closes
  = [SFsucc 53 1024 (SFsucc 53 1024 (SFsucc 53 1024 (SFsucc 53 1024
       (SFsucc 53 1024 (Binary64.of_Z 10)))))] ∧
  Binary64.weekly_returns closes
  ≠ [Binary64.pct_return (Binary64.of_Z 100) (Binary64.of_Z 110)] ∧
  ∃ r, Binary64.weekly_returns closes = [r] ∧
       Binary64.gt r (Binary64.of_Z 10) = true.
Proof.
  cbv zeta. split; [by apply (bool_decide_unpack _)|].
  split; [vm_compute; reflexivity|].
  split; [vm_compute; reflexivity|].
  split; [vm_compute; discriminate|].
  eexists. split; vm_compute; reflexivity.
Qed.

(** The Friday closes of the example download, 80, 100 and 75, give the
    two returns +25 and -25, in the table model and, nothing being rounded
    here, in float64 alike. *)
Example returns_example :
  (f ← prepare "AAPL" (Standin.daily "AAPL"); returns_array f)
  = Ok [[of_Z 25]; [of_Z (-25)]] ∧
  Binary64.weekly_returns (Binary64.of_Z <$> [80; 100; 75])
  = Binary64.of_Z <$> [25; -25].
Proof. split; [by apply (bool_decide_unpack _)|vm_compute; reflexivity]. Qed.

(** ** The state column, line 57 *)

(** C10. Attaching the decoded states (one per row) succeeds and changes
    nothing but the "state" column: the index, the closing prices under
    the ticker's label, the returns and every other column are as before,
    and the new column has exactly one entry per row. *)
Theorem attach_state_frame
    (ticker : string) (fridays : frame) (states : list Z) (lab : gmap Z string) :
  ticker ∉ reserved →
  length states = nrows fridays →
  ∃ tbl vs,
    attach_state fridays states lab = Ok tbl ∧
    index tbl = index fridays ∧
    columns tbl !! ticker = columns fridays !! ticker ∧
    columns tbl !! "returns" = columns fridays !! "returns" ∧
    (∀ k, k ≠ "state" → columns tbl !! k = columns fridays !! k) ∧
    columns tbl !! "state" = Some (CatCol vs) ∧
    length vs = nrows tbl.
Proof.
  intros Hticker Hlen.
  destruct (not_reserved _ Hticker) as (_ & _ & Hst).
  unfold attach_state, setitem, rename_categories. cbn [col_length].
  rewrite decide_True by (by rewrite length_fmap).
  eexists _, _. split; [done|]. cbn [index columns nrows].
  repeat split.
  - by rewrite lookup_insert_ne.
  - by rewrite lookup_insert_ne.
  - intros k Hk. by rewrite lookup_insert_ne.
  - by rewrite lookup_insert_eq.
  - by rewrite length_fmap.
Qed.

Lemma attach_state_frame_witness :
  let fridays := Standin.weekly "AAPL" [1; 2; 3; 4; 5] [1; -1; 5; -5; 0] in
  let states := [0; 0; 1; 1; 0] in
  let lab : gmap Z string := {[ 1 := "High Vol"; 0 := "Low Vol" ]} in
  ∃ tbl vs,
    attach_state fridays states lab = Ok tbl ∧
    index tbl = index fridays ∧
    columns tbl !! "AAPL" = columns fridays !! "AAPL" ∧
    columns tbl !! "returns" = columns fridays !! "returns" ∧
    columns tbl !! "weekday" = columns fridays !! "weekday" ∧
    columns tbl !! "state" = Some (CatCol vs) ∧
    length vs = 5%nat.
Proof.
  destruct (attach_state_frame "AAPL"
              (Standin.weekly "AAPL" [1; 2; 3; 4; 5] [1; -1; 5; -5; 0])
              [0; 0; 1; 1; 0] {[ 1 := "High Vol"; 0 := "Low Vol" ]})
    as (tbl & vs & H1 & H2 & H3 & H4 & H5 & H6 & H7).
  - unfold reserved. by apply (bool_decide_unpack (_ ∉ _)).
  - reflexivity.
  - exists tbl, vs. repeat split; try done.
    + by apply H5.
    + rewrite H7. unfold nrows. by rewrite H2.
Defined.

(** A path of another length is refused, and nothing is attached. *)
Lemma attach_state_wrong_length
    (fridays : frame) (states : list Z) (lab : gmap Z string) :
  length states ≠ nrows fridays →
  ∃ e, attach_state fridays states lab = Err e.
Proof.
  intros Hlen. unfold attach_state, setitem, rename_categories.
  cbn [col_length]. rewrite decide_False by (by rewrite length_fmap). eauto.
Qed.

Example state_column_example :
  (tbl ← attach_state (Standin.weekly "AAPL" [1; 2; 3] [1; -1; 5]) [0; 0; 1]
          {[ 1 := "High Vol"; 0 := "Low Vol" ]};
   getitem tbl "state")
  = Ok (CatCol [CStr "Low Vol"; CStr "Low Vol"; CStr "High Vol"]).
Proof. vm_compute. reflexivity. Qed.

(** ** The calls to the estimator, lines 44-48 *)

Section Calls.
Context `{lib : Library}.
Variables (ticker : string) (cfg : Config) (ambient : rng) (df : frame).

(** Once lines 35-44 have produced the array [X], the next thing the
    script does is to call [fit] on it. *)
Lemma run_calls_fit (fridays : frame) (X : list (list fval)) :
  prepare ticker df = Ok fridays →
  returns_array fridays = Ok X →
  (∃ rest, calls (run ticker cfg ambient df) = CallFit cfg X :: rest) ∧
  (∀ e, fit cfg (check_random_state (random_state cfg) ambient) X = Err e →
        run ticker cfg ambient df = ([CallFit cfg X], Err e)) ∧
  (∀ m, fit cfg (check_random_state (random_state cfg) ambient) X = Ok m →
        ∃ rest, calls (run ticker cfg ambient df)
                = CallFit cfg X :: CallPredict X :: rest).
Proof using Type.
  intros Hprep HX. unfold run, lift, hmm_fit, hmm_predict.
  rewrite Hprep. cbn [mbind prog_bind]. rewrite HX. cbn [mbind prog_bind].
  destruct (fit _ _ X) as [m|e]; cbn [calls fst app].
  - destruct (predict m X) as [states|e]; cbn [calls fst app].
    + destruct (regime_labels fridays states) as [lab|e]; cbn;
        [destruct (attach_state fridays states lab); cbn|];
        (split; [eauto|split; [done|intros ? [= <-]; eauto]]).
    + split; [eauto|split; [done|intros ? [= <-]; eauto]].
  - split; [eauto|split; [by intros ? [= <-]|done]].
Qed.

(** Every call the script makes carries the configuration it was run
    with. *)
Lemma run_calls_cfg (c : Config) (X : list (list fval)) :
  CallFit c X ∈ calls (run ticker cfg ambient df) → c = cfg.
Proof using Type.
  rewrite list_elem_of_In. unfold run, lift, hmm_fit, hmm_predict.
  destruct (prepare ticker df) as [fridays|e]; cbn; [|done].
  destruct (returns_array fridays) as [X0|e]; cbn; [|done].
  destruct (fit _ _ X0) as [m|e]; cbn; [|intuition congruence].
  destruct (predict m X0) as [states|e]; cbn; [|intuition congruence].
  destruct (regime_labels fridays states) as [lab|e]; cbn;
    [|intuition congruence].
  destruct (attach_state fridays states lab); cbn; intuition congruence.
Qed.
End Calls.

(** C6. Every [fit] the script asks for is on an estimator built with two
    states, an iteration cap of 10000, the covariance structure "full"
    (one of "diag" and "full"), and an explicit integer seed, 2606, from
    which the generator used for training is derived whatever the state
    of the global generator. *)
Theorem fit_configuration `{lib : Library}
    (ticker : string) (ambient : rng) (df : frame)
    (cfg : Config) (X : list (list fval)) :
  CallFit cfg X ∈ calls (app ticker ambient df) →
  n_components cfg = 2 ∧
  n_iter cfg = 10000 ∧
  covariance_type cfg ∈ ["diag"; "full"] ∧
  random_state cfg = Some 2606 ∧
  check_random_state (random_state cfg) ambient = seeded 2606.
Proof.
  intros Hin. apply run_calls_cfg in Hin as ->.
  repeat split. cbn. apply list_elem_of_further, list_elem_of_here.
Qed.

Lemma fit_configuration_witness :
  let cfg := {| n_components := 2; covariance_type := "full";
                n_iter := 10000; random_state := Some 2606 |} in
  n_components cfg = 2 ∧
  n_iter cfg = 10000 ∧
  covariance_type cfg ∈ ["diag"; "full"] ∧
  random_state cfg = Some 2606 ∧
  @check_random_state Standin.strict (random_state cfg) 7
  = @seeded Standin.strict 2606.
Proof.
  apply (@fit_configuration Standin.strict "AAPL" 7 (Standin.daily "AAPL")
           _ [[of_Z 25]; [of_Z (-25)]]).
  by apply (bool_decide_unpack _).
Defined.



(** Without a seed the stand-in estimator numbers its states after the
    global generator, and two runs decode different paths. *)
Example unseeded_runs_differ :
  let df := Standin.daily "AAPL" in
  states <$> (outcome (@run Standin.strict "AAPL" Standin.unseeded 0 df)
            : result _)
  ≠ states <$> outcome (@run Standin.strict "AAPL" Standin.unseeded 1 df).
Proof. vm_compute. discriminate. Qed.

(** ** Short inputs *)

Lemma length_friday_rows (idx : list Z) (prices : list fval) :
  length prices = length idx →
  length (friday_rows (zip idx prices))
  = length (mask_list (col_eq_int (IntCol (dayofweek <$> idx)) 4) prices).
Proof.
  intros Hlen. rewrite <- mask_friday_rows, <- mask_list_zip.
  rewrite length_zip_with_r_eq; [done|]. by apply length_mask_list.
Qed.

(** The script checks no length.  For every downloaded table, however few
    Fridays it has, lines 35-44 succeed and give an array with one row
    fewer than there are Fridays (none, when there is at most one); the
    script's next step is to call [fit] on that array; and when that call
    raises, the run ends there with the estimator's exception. *)
Lemma short_input_reaches_trainer `{lib : Library}
    (ticker : string) (ambient : rng) (df : frame) (prices : list fval) :
  ticker ∉ reserved →
  closes ticker df prices →
  ∃ fridays X,
    prepare ticker df = Ok fridays ∧
    returns_array fridays = Ok X ∧
    length X = (length (friday_rows (zip (index df) prices)) - 1)%nat ∧
    (∃ rest, calls (app ticker ambient df) = CallFit config X :: rest) ∧
    (∀ e, fit config (seeded 2606) X = Err e →
          app ticker ambient df = ([CallFit config X], Err e)).
Proof.
  intros Hticker Hcloses.
  destruct (not_reserved _ Hticker) as (_ & Hrt & _).
  pose proof (prepare_ok _ _ _ Hticker Hcloses) as Hprep. cbv zeta in Hprep.
  destruct Hcloses as [Hcol Hlen].
  set (m := col_eq_int (IntCol (dayofweek <$> index df)) 4) in *.
  set (rs := drop 1 (scale 100 (pct_change (mask_list m prices)))) in *.
  match type of Hprep with _ = Ok ?f => set (fridays := f) in * end.
  assert (returns_array fridays = Ok (reshape_col rs)) as HX.
  { unfold returns_array, getitem, fridays. cbn [columns].
    by rewrite lookup_insert_ne, lookup_singleton_eq. }
  exists fridays, (reshape_col rs).
  split; [done|]. split; [done|]. split.
  { unfold reshape_col, rs.
    rewrite length_fmap, length_drop, length_scale, length_pct_change.
    by rewrite length_friday_rows. }
  destruct (run_calls_fit ticker config ambient df _ _ Hprep HX)
    as (Hcalls & Herr & _).
  split; [exact Hcalls|exact Herr].
Qed.



(** An empty download: [fit] is called on the empty array and raises. *)
Example empty_input_calls_fit :
  @app Standin.strict "AAPL" 0 (Standin.empty "AAPL")
  = ([CallFit config []],
     Err (ValueError "Found array with 0 sample(s) (shape=(0, 1)) while a minimum of 1 is required.")).
Proof. vm_compute. reflexivity. Qed.


(** * Further properties of the script *)

(** ** Lines 35-44: what the preparation raises and what it keeps *)

(** X1. A table that has no column under the label typed as ticker (a
    symbol typed in lower case, say, against a download labelled in upper
    case) stops the script at line 38 with a KeyError for that label,
    before the estimator is called at all. *)
Theorem missing_ticker_column `{lib : Library}
    (ticker : string) (cfg : Config) (ambient : rng) (df : frame) :
  ticker ≠ "weekday" →
  columns df !! ticker = None →
  prepare ticker df = Err (KeyError ticker) ∧
  run ticker cfg ambient df = ([], Err (KeyError ticker)).
Proof.
  intros Hwd Hnone.
  assert (prepare ticker df = Err (KeyError ticker)) as Hprep.
  { unfold prepare. rewrite add_weekday_ok. cbn [mbind result_bind].
    rewrite select_fridays_ok. cbn [mbind result_bind].
    unfold add_returns, getitem. cbn [columns].
    by rewrite lookup_fmap, lookup_insert_ne, Hnone. }
  split; [done|]. unfold run. by rewrite Hprep.
Qed.

Lemma missing_ticker_column_witness :
  prepare "aapl" (Standin.daily "AAPL") = Err (KeyError "aapl") ∧
  @run Standin.strict "aapl" config 0 (Standin.daily "AAPL")
  = ([], Err (KeyError "aapl")).
Proof.
  apply (@missing_ticker_column Standin.strict); [done|].
  by apply (bool_decide_unpack _).
Defined.

Lemma mask_list_fridays (idx : list Z) :
  mask_list (col_eq_int (IntCol (dayofweek <$> idx)) 4) idx
  = filter (λ t, dayofweek t = 4) idx.
Proof.
  cbn [col_eq_int]. rewrite <- list_fmap_compose, mask_list_filter.
  apply list_filter_iff. intros t. cbn. apply Z.eqb_eq.
Qed.

Lemma fst_friday_rows (idx : list Z) (prices : list fval) :
  length prices = length idx →
  (friday_rows (zip idx prices)).*1 = filter (λ t, dayofweek t = 4) idx.
Proof.
  intros Hlen. rewrite <- mask_friday_rows, <- mask_list_zip, <- mask_list_fridays.
  apply fst_zip. by rewrite (length_mask_list _ _ prices).
Qed.

(** X2. After line 39 the weekly table has exactly two columns, the
    closing prices under the ticker's label and "returns" (the "weekday"
    column is gone); both have one entry per row; its dates are the
    Fridays of the download without the first one, so it has one row
    fewer than there are Fridays, and every date in it is a Friday. *)
Theorem prepared_table_shape
    (ticker : string) (df : frame) (prices : list fval) :
  ticker ∉ reserved →
  closes ticker df prices →
  ∃ fridays,
    prepare ticker df = Ok fridays ∧
    dom (columns fridays) = {[ ticker; "returns" ]} ∧
    (∀ k c, columns fridays !! k = Some c → col_length c = nrows fridays) ∧
    index fridays = drop 1 (filter (λ t, dayofweek t = 4) (index df)) ∧
    nrows fridays = (length (friday_rows (zip (index df) prices)) - 1)%nat ∧
    Forall (λ t, dayofweek t = 4) (index fridays).
Proof.
  intros Hticker Hcloses.
  pose proof (prepare_ok _ _ _ Hticker Hcloses) as Hprep. cbv zeta in Hprep.
  destruct Hcloses as [Hcol Hlen].
  set (m := col_eq_int (IntCol (dayofweek <$> index df)) 4) in *.
  eexists. split; [exact Hprep|]. cbn [columns index nrows].
  assert (length (mask_list m prices) = length (mask_list m (index df)))
    as Hmask by (by apply length_mask_list).
  split; [|split; [|split; [|split]]].
  - by rewrite dom_insert_L, dom_singleton_L.
  - intros k c [[<- <-]|[_ [<- <-]%lookup_singleton_Some]]%lookup_insert_Some;
      cbn [col_length];
      unfold nrows; cbn [index];
      rewrite !length_drop, ?length_scale, ?length_pct_change;
      by rewrite Hmask.
  - unfold m. by rewrite mask_list_fridays.
  - unfold nrows; cbn [index].
    rewrite length_drop, length_friday_rows by done. fold m.
    by rewrite Hmask.
  - apply Forall_drop. unfold m. rewrite mask_list_fridays.
    apply Forall_forall. by intros t [? _]%list_elem_of_filter.
Qed.

Lemma prepared_table_shape_witness :
  ∃ fridays,
    prepare "AAPL" (Standin.daily "AAPL") = Ok fridays ∧
    dom (columns fridays) = {[ "AAPL"; "returns" ]} ∧
    index fridays = [16444; 16451] ∧
    nrows fridays = 2%nat.
Proof.
  destruct (prepared_table_shape "AAPL" (Standin.daily "AAPL")
              (of_Z <$> [80; 81; 82; 81; 83; 100; 101; 99; 98; 97; 75]))
    as (fridays & H1 & H2 & _ & H3 & H4 & _).
  - unfold reserved. by apply (bool_decide_unpack (_ ∉ _)).
  - split; reflexivity.
  - exists fridays. by rewrite H3.
Defined.

Lemma StronglySorted_sublist {A} (R : relation A) (l1 l2 : list A) :
  l1 `sublist_of` l2 → StronglySorted R l2 → StronglySorted R l1.
Proof.
  induction 1 as [|x l1 l2 Hsub IH|x l1 l2 Hsub IH]; intros Hs.
  - constructor.
  - apply StronglySorted_cons in Hs as [Hall Hs].
    apply StronglySorted_cons. split; [|by apply IH].
    apply Forall_forall. intros y Hy.
    rewrite Forall_forall in Hall. apply Hall. by eapply elem_of_sublist.
  - apply StronglySorted_cons in Hs as [_ Hs]. by apply IH.
Qed.

Lemma StronglySorted_adjacent {A} (R : relation A) (l : list A) i a b :
  StronglySorted R l → l !! i = Some a → l !! S i = Some b → R a b.
Proof.
  intros Hs. revert i. induction Hs as [|x l Hs IH Hall]; intros i Ha Hb.
  - done.
  - destruct i as [|i]; cbn in Ha, Hb.
    + injection Ha as ->. rewrite Forall_forall in Hall.
      apply Hall. by eapply list_elem_of_lookup_2.
    + by eapply IH.
Qed.

(** X3. When the dates of the download are strictly increasing, so are
    the dates of the weekly table, and two consecutive rows lie a whole,
    positive number of weeks apart: one week as a rule, more where a
    Friday is missing from the download. *)
Theorem weekly_spacing (ticker : string) (df : frame) (prices : list fval) :
  ticker ∉ reserved →
  closes ticker df prices →
  StronglySorted Z.lt (index df) →
  ∃ fridays,
    prepare ticker df = Ok fridays ∧
    StronglySorted Z.lt (index fridays) ∧
    ∀ i t1 t2,
      index fridays !! i = Some t1 →
      index fridays !! S i = Some t2 →
      ∃ weeks, 0 < weeks ∧ t2 = t1 + 7 * weeks.
Proof.
  intros Hticker Hcloses Hsorted.
  pose proof (prepare_ok _ _ _ Hticker Hcloses) as Hprep. cbv zeta in Hprep.
  eexists. split; [exact Hprep|]. cbn [index].
  rewrite mask_list_fridays.
  set (fr := filter (λ t, dayofweek t = 4) (index df)).
  assert (StronglySorted Z.lt (drop 1 fr)) as Hs.
  { apply (StronglySorted_sublist _ _ (index df)); [|done].
    trans fr; [apply sublist_drop|apply sublist_filter]. }
  split; [done|].
  intros i t1 t2 H1 H2.
  pose proof (StronglySorted_adjacent _ _ _ _ _ Hs H1 H2) as Hlt.
  assert (∀ t j, drop 1 fr !! j = Some t → dayofweek t = 4) as Hfri.
  { intros t j Hj. apply list_elem_of_lookup_2 in Hj.
    pose proof (elem_of_sublist _ _ _ Hj (sublist_drop fr 1)) as Hin.
    by apply list_elem_of_filter in Hin as [? _]. }
  pose proof (Hfri _ _ H1) as F1. pose proof (Hfri _ _ H2) as F2.
  unfold dayofweek in F1, F2.
  exists ((t2 + 3) / 7 - (t1 + 3) / 7).
  pose proof (Z.div_mod (t1 + 3) 7). pose proof (Z.div_mod (t2 + 3) 7). lia.
Qed.

Lemma weekly_spacing_witness :
  ∃ fridays,
    prepare "AAPL" (Standin.daily "AAPL") = Ok fridays ∧
    index fridays = [16444; 16451] ∧
    ∃ weeks, 0 < weeks ∧ 16451 = 16444 + 7 * weeks.
Proof.
  destruct (weekly_spacing "AAPL" (Standin.daily "AAPL")
              (of_Z <$> [80; 81; 82; 81; 83; 100; 101; 99; 98; 97; 75]))
    as (fridays & Hprep & _ & Hweeks).
  - unfold reserved. by apply (bool_decide_unpack (_ ∉ _)).
  - split; reflexivity.
  - cbn [Standin.daily index]. repeat (constructor; [repeat constructor; lia|]).
    constructor.
  - assert (prepare "AAPL" (Standin.daily "AAPL")
            ≫= (λ f, Ok (index f)) = Ok [16444; 16451]) as Hidx
      by (vm_compute; reflexivity).
    rewrite Hprep in Hidx. cbn in Hidx. injection Hidx as Hidx.
    exists fridays. split; [done|]. split; [done|].
    apply (Hweeks 0%nat); by rewrite Hidx.
Defined.

(** ** Lines 38-44: the values of the returns *)

Lemma returns_array_prepared (ticker : string) (c1 : column) (rs : list fval)
    (idx : list Z) :
  ticker ≠ "returns" →
  returns_array {| index := idx;
                   columns := {[ ticker := c1; "returns" := FloatCol rs ]} |}
  = Ok (reshape_col rs).
Proof.
  intros Hrt. unfold returns_array, getitem. cbn [columns].
  by rewrite lookup_insert_ne, lookup_singleton_eq.
Qed.

(** ** Rounding in binary64 keeps the sign *)

Lemma shr_1_nonneg mrs : 0 ≤ shr_m mrs → 0 ≤ shr_m (shr_1 mrs).
Proof. destruct mrs as [[|[p|p|]|p] r s]; cbn; lia. Qed.

Lemma iter_shr_1_nonneg p mrs :
  0 ≤ shr_m mrs → 0 ≤ shr_m (SpecFloat.iter_pos shr_1 p mrs).
Proof.
  revert mrs. induction p as [p IH|p IH|]; intros mrs H; cbn.
  - by apply IH, IH, shr_1_nonneg.
  - by apply IH, IH.
  - by apply shr_1_nonneg.
Qed.

Lemma shr_fexp_nonneg m e l :
  0 ≤ m → 0 ≤ shr_m (shr_fexp 53 1024 m e l).1.
Proof.
  intros H. unfold shr_fexp, shr.
  assert (0 ≤ shr_m (shr_record_of_loc m l)) as H'
    by (by destruct l as [|[]]).
  destruct (fexp 53 1024 (Zdigits2 m + e) - e); cbn [fst]; try done.
  by apply iter_shr_1_nonneg.
Qed.

Lemma round_nearest_even_nonneg m l : 0 ≤ m → 0 ≤ round_nearest_even m l.
Proof.
  intros H. destruct l as [|[]]; cbn; try lia.
  destruct (Z.even m); lia.
Qed.

(** What [binary_round_aux] returns carries the sign it was given. *)
Lemma binary_round_aux_sign s m e l :
  match binary_round_aux 53 1024 s m e l with
  | S754_zero s' | S754_infinity s' | S754_finite s' _ _ => s' = s
  | S754_nan => True
  end.
Proof.
  unfold binary_round_aux.
  destruct (shr_fexp 53 1024 m e l) as [mrs' e'].
  destruct (shr_fexp 53 1024 _ e' loc_Exact) as [mrs'' e''].
  destruct (shr_m mrs''); try done. by destruct (_ <=? _).
Qed.

(** ... and is a number when the mantissa is not negative. *)
Lemma binary_round_aux_number s m e l :
  0 ≤ m → binary_round_aux 53 1024 s m e l ≠ S754_nan.
Proof.
  intros H. unfold binary_round_aux.
  pose proof (shr_fexp_nonneg m e l H) as H1.
  destruct (shr_fexp 53 1024 m e l) as [mrs' e']. cbn [fst] in H1.
  pose proof (shr_fexp_nonneg _ e' loc_Exact
                (round_nearest_even_nonneg _ (loc_of_shr_record mrs') H1)) as H2.
  destruct (shr_fexp 53 1024 _ e' loc_Exact) as [mrs'' e'']. cbn [fst] in H2.
  destruct (shr_m mrs''); [done| |lia]. by destruct (_ <=? _).
Qed.

Lemma binary_round_aux_not_negative m e l :
  Binary64.not_negative (binary_round_aux 53 1024 false m e l) = true.
Proof.
  pose proof (binary_round_aux_sign false m e l) as H.
  by destruct (binary_round_aux _ _ _ _ _ _); cbn; subst.
Qed.

Lemma binary_normalize_not_negative m e :
  0 ≤ m → Binary64.not_negative (binary_normalize 53 1024 m e false) = true.
Proof.
  intros H. destruct m as [|p|p]; [done| |lia].
  unfold binary_normalize, binary_round. destruct (shl_align _ _ _).
  apply binary_round_aux_not_negative.
Qed.

Lemma binary_normalize_number m e s :
  binary_normalize 53 1024 m e s ≠ S754_nan.
Proof.
  destruct m as [|p|p]; [done| |];
    unfold binary_normalize, binary_round; destruct (shl_align _ _ _);
    by apply binary_round_aux_number.
Qed.

Lemma negb_true_false (s : bool) : negb s = true → s = false.
Proof. by destruct s. Qed.

Lemma add_not_negative x y :
  Binary64.not_negative x = true → Binary64.not_negative y = true →
  Binary64.not_negative (Binary64.add x y) = true.
Proof.
  destruct x as [sx|sx| |sx mx ex], y as [sy|sy| |sy my ey]; cbn;
    try done;
    intros ->%negb_true_false ->%negb_true_false; try done.
  apply binary_normalize_not_negative. cbn. lia.
Qed.

Lemma div_not_negative x y :
  Binary64.not_negative x = true → Binary64.not_negative y = true →
  Binary64.not_negative (Binary64.div x y) = true.
Proof.
  destruct x as [sx|sx| |sx mx ex], y as [sy|sy| |sy my ey]; cbn;
    try done;
    intros ->%negb_true_false ->%negb_true_false; try done.
  destruct (SFdiv_core_binary _ _ _ _ _ _) as [[mz ez] lz].
  apply binary_round_aux_not_negative.
Qed.

Lemma square_not_negative d :
  Binary64.not_negative (Binary64.mul d d) = true.
Proof.
  destruct d as [s|s| |s m e]; cbn; try done; try (by destruct s).
  replace (xorb s s) with false by (by destruct s).
  apply binary_round_aux_not_negative.
Qed.

Lemma of_nat_not_negative (n : nat) :
  Binary64.not_negative (Binary64.of_Z (Z.of_nat n)) = true.
Proof. apply binary_normalize_not_negative. lia. Qed.

Lemma not_negative_lt_zero x :
  Binary64.not_negative x = true → Binary64.gt Binary64.zero x = false.
Proof.
  destruct x as [s|s| |s m e]; cbn; try done;
    by intros ->%negb_true_false.
Qed.

(** ** No NaN among the returns *)

Lemma div_eucl_nonneg (a b q r : Z) :
  0 ≤ a → 0 < b → Z.div_eucl a b = (q, r) → 0 ≤ q.
Proof.
  intros Ha Hb H.
  assert (q = a / b) as -> by (unfold Z.div; by rewrite H).
  apply Z.div_pos; lia.
Qed.

Lemma div_number (x y : Binary64.f64) :
  Binary64.finite_nonzero x = true → Binary64.finite_nonzero y = true →
  Binary64.div x y ≠ Binary64.nan.
Proof.
  destruct x as [| | |sx mx ex], y as [| | |sy my ey]; try done. intros _ _.
  unfold Binary64.div, SFdiv, SFdiv_core_binary.
  destruct (Z.div_eucl _ (Z.pos my)) as [q r] eqn:Hq.
  apply binary_round_aux_number.
  refine (div_eucl_nonneg _ (Z.pos my) q r _ _ Hq); [|lia].
  destruct (ex - ey - _); try done. by apply Z.shiftl_nonneg.
Qed.

Lemma sub_number (x y : Binary64.f64) :
  x ≠ Binary64.nan → Binary64.finite_nonzero y = true →
  Binary64.sub x y ≠ Binary64.nan.
Proof.
  destruct x as [sx|sx| |sx mx ex], y as [| | |sy my ey]; try done.
  intros _ _. apply binary_normalize_number.
Qed.

Lemma mul_number (x y : Binary64.f64) :
  x ≠ Binary64.nan → Binary64.finite_nonzero y = true →
  Binary64.mul x y ≠ Binary64.nan.
Proof.
  destruct x as [sx|sx| |sx mx ex], y as [| | |sy my ey]; try done.
  intros _ _. by apply binary_round_aux_number.
Qed.

(** X4. When every Friday close is a finite number other than zero, no
    return handed to the estimator is NaN: the NaN that [pct_change] puts
    in the first row is the row line 39 drops, and neither the division,
    the subtraction nor the multiplication of two such numbers gives NaN.
    (A return may still overflow to an infinity.) *)
Theorem returns_are_numbers (closes : list Binary64.f64) :
  Forall (λ p, Binary64.finite_nonzero p = true) closes →
  Forall (λ r, Binary64.is_nan r = false) (Binary64.weekly_returns closes).
Proof.
  intros Hcloses. apply Forall_lookup. intros t r Hr.
  pose proof (lookup_lt_Some _ _ _ Hr) as Ht.
  rewrite length_weekly_returns in Ht.
  destruct (lookup_lt_is_Some_2 closes t) as [p Hp]; [lia|].
  destruct (lookup_lt_is_Some_2 closes (S t)) as [q Hq]; [lia|].
  rewrite (lookup_weekly_returns _ _ _ _ Hp Hq) in Hr. injection Hr as <-.
  assert (Binary64.mul (Binary64.sub (Binary64.div q p) (Binary64.of_Z 1))
            (Binary64.of_Z 100) ≠ Binary64.nan) as Hne.
  { apply mul_number; [|done]. apply sub_number; [|done].
    apply div_number.
    - exact (proj1 (Forall_lookup _ _) Hcloses _ _ Hq).
    - exact (proj1 (Forall_lookup _ _) Hcloses _ _ Hp). }
  by destruct (Binary64.mul _ _).
Qed.

Lemma returns_are_numbers_witness :
  Forall (λ r, Binary64.is_nan r = false)
    (Binary64.weekly_returns (Binary64.of_Z <$> [100; 110; 99])).
Proof.
  apply returns_are_numbers. by apply (bool_decide_unpack _).
Defined.

(** Finite closes far enough apart do overflow: the return is +inf. *)
Example return_overflows :
  Binary64.weekly_returns
    [Binary64.div (Binary64.of_Z 1) (Binary64.of_Z (2 ^ 600));
     Binary64.of_Z (2 ^ 600)]
  = [S754_infinity false].
Proof. vm_compute. reflexivity. Qed.


Lemma zip_with_take_r {A B C} (f : A → B → C) (xs : list A) (ys : list B) :
  zip_with f xs (take (length xs) ys) = zip_with f xs ys.
Proof.
  revert ys. induction xs as [|x xs IH]; intros [|y ys]; cbn; try done.
  by rewrite IH.
Qed.

(** Every price is divided by the one before it, the first by NaN. *)
Lemma pct_change_prev (xs : list fval) :
  pct_change xs
  = zip_with (λ x prev, fsub (fdiv x prev) (of_Z 1)) xs (NaN :: xs).
Proof. unfold pct_change, shift1. apply zip_with_take_r. Qed.

Lemma Qc_sgn_mul_pos (c q : Qc) : (0 < c)%Qc → Qc_sgn (c * q) = Qc_sgn q.
Proof.
  intros Hc. unfold Qc_sgn.
  destruct (decide (0 < q)%Qc) as [Hq|Hq].
  - rewrite decide_True; [done|]. by apply Qcmult_pos_pos.
  - rewrite (decide_False (P := (0 < _ * _)%Qc)).
    2:{ intros H. apply Hq. apply (Qcmult_lt_mono_pos_l 0 q _ Hc).
        by rewrite Qcmult_0_r. }
    destruct (decide (q < 0)%Qc) as [Hn|Hn].
    + rewrite decide_True; [done|].
      rewrite <- (Qcmult_0_r c). by apply Qcmult_lt_mono_pos_l.
    + rewrite decide_False; [done|].
      intros H. apply Hn. apply (Qcmult_lt_mono_pos_l q 0 _ Hc).
      by rewrite Qcmult_0_r.
Qed.

Lemma fdiv_rescale (c a b : Qc) :
  (0 < c)%Qc → fdiv (Fin (c * b)) (Fin (c * a)) = fdiv (Fin b) (Fin a).
Proof.
  intros Hc. assert (c ≠ 0%Qc) as Hcne by (by apply not_eq_sym, Qclt_not_eq).
  unfold fdiv. destruct (decide (a = 0%Qc)) as [->|Hne].
  - rewrite Qcmult_0_r, decide_True by done. by rewrite Qc_sgn_mul_pos.
  - rewrite decide_False.
    + f_equal. field. done.
    + intros [?|?]%Qcmult_integral; done.
Qed.

Lemma pct_change_rescale (c : Qc) (qs : list Qc) :
  (0 < c)%Qc →
  pct_change (Fin <$> ((λ q, c * q)%Qc <$> qs)) = pct_change (Fin <$> qs).
Proof.
  intros Hc. rewrite !pct_change_prev.
  destruct qs as [|q qs]; [done|]. csimpl. f_equal.
  revert q. induction qs as [|q' qs IH]; intros q; csimpl; [done|].
  rewrite IH. do 2 f_equal. exact (fdiv_rescale c q q' Hc).
Qed.



(** ** Lines 50-57: variances, labels and the state column *)

(** ** Sums in binary64 *)

Lemma sum_unrolled_length (xs r : list Binary64.f64) :
  length r = 8%nat → length (Binary64.sum_unrolled r xs).1 = 8%nat.
Proof.
  revert r. induction xs as [xs IH] using (induction_ltof1 _ length).
  unfold ltof in IH. intros r Hr.
  destruct xs as [|a0 [|a1 [|a2 [|a3 [|a4 [|a5 [|a6 [|a7 xs']]]]]]]];
    try done.
  cbn [Binary64.sum_unrolled]. apply IH; [cbn; lia|].
  rewrite length_zip_with_l_eq; [done|]. by rewrite Hr.
Qed.

Lemma foldl_add_not_negative (xs : list Binary64.f64) (acc : Binary64.f64) :
  Binary64.not_negative acc = true →
  Forall (λ x, Binary64.not_negative x = true) xs →
  Binary64.not_negative (foldl Binary64.add acc xs) = true.
Proof.
  revert acc. induction xs as [|x xs IH]; intros acc Hacc Hxs; [done|].
  apply Forall_cons in Hxs as [Hx Hxs]. cbn.
  apply IH; [by apply add_not_negative|done].
Qed.

Lemma sum_unrolled_not_negative (xs r : list Binary64.f64) :
  Forall (λ x, Binary64.not_negative x = true) r →
  Forall (λ x, Binary64.not_negative x = true) xs →
  Forall (λ x, Binary64.not_negative x = true) (Binary64.sum_unrolled r xs).1 ∧
  Forall (λ x, Binary64.not_negative x = true) (Binary64.sum_unrolled r xs).2.
Proof.
  revert r. induction xs as [xs IH] using (induction_ltof1 _ length).
  unfold ltof in IH. intros r Hr Hxs.
  destruct xs as [|a0 [|a1 [|a2 [|a3 [|a4 [|a5 [|a6 [|a7 xs']]]]]]]];
    try (by split).
  cbn [Binary64.sum_unrolled]. apply IH.
  - cbn. lia.
  - repeat (apply Forall_cons in Hxs as [? Hxs]).
    clear IH Hxs.
    repeat (destruct r as [|? r]; [by cbn|];
            apply Forall_cons in Hr as [? Hr]; cbn;
            apply Forall_cons; split; [by apply add_not_negative|]).
    by destruct r.
  - by repeat (apply Forall_cons in Hxs as [? Hxs]).
Qed.

Lemma sum_block_not_negative (xs : list Binary64.f64) :
  Forall (λ x, Binary64.not_negative x = true) xs →
  Binary64.not_negative (Binary64.sum_block xs) = true.
Proof.
  intros Hxs. unfold Binary64.sum_block. case_decide.
  - by apply foldl_add_not_negative.
  - destruct (sum_unrolled_not_negative (drop 8 xs) (take 8 xs)) as [Hr Hrest];
      [by apply Forall_take|by apply Forall_drop|].
    destruct (Binary64.sum_unrolled _ _) as [r rest]. cbn [fst snd] in *.
    destruct r as [|r0 [|r1 [|r2 [|r3 [|r4 [|r5 [|r6 [|r7 [|]]]]]]]]]; try done.
    repeat (apply Forall_cons in Hr as [? Hr]).
    apply foldl_add_not_negative; [|done].
    repeat apply add_not_negative; done.
Qed.

Lemma pairwise_sum_not_negative (fuel : nat) (xs : list Binary64.f64) :
  Forall (λ x, Binary64.not_negative x = true) xs →
  Binary64.not_negative (Binary64.pairwise_sum fuel xs) = true.
Proof.
  revert xs. induction fuel as [|fuel IH]; intros xs Hxs; cbn.
  - by apply sum_block_not_negative.
  - case_decide; [by apply sum_block_not_negative|].
    apply add_not_negative; apply IH; [by apply Forall_take|by apply Forall_drop].
Qed.

Lemma sum_not_negative (xs : list Binary64.f64) :
  Forall (λ x, Binary64.not_negative x = true) xs →
  Binary64.not_negative (Binary64.sum xs) = true.
Proof.
  intros Hxs. unfold Binary64.sum.
  apply add_not_negative; [done|by apply pairwise_sum_not_negative].
Qed.

(** The depth the cutting needs is below the length of the array: more
    fuel changes nothing. *)
Lemma pairwise_sum_fuel (fuel extra : nat) (xs : list Binary64.f64) :
  (length xs ≤ fuel + 128)%nat →
  Binary64.pairwise_sum (fuel + extra) xs = Binary64.pairwise_sum fuel xs.
Proof.
  revert xs. induction fuel as [|fuel IH]; intros xs Hlen.
  - destruct extra; cbn; [done|]. by rewrite decide_True by lia.
  - cbn [Binary64.pairwise_sum Nat.add]. case_decide; [done|].
    set (n2 := (length xs / 2 - (length xs / 2) mod 8)%nat).
    assert (1 ≤ n2 ∧ n2 < length xs)%nat as [Hn1 Hn2].
    { unfold n2.
      pose proof (Nat.mod_upper_bound (length xs / 2) 8 ltac:(lia)).
      pose proof (Nat.div_mod_eq (length xs) 2).
      pose proof (Nat.mod_upper_bound (length xs) 2 ltac:(lia)). lia. }
    rewrite !IH; [done| |]; rewrite ?length_drop, ?length_take; lia.
Qed.

(** ** [var] in binary64 *)

Lemma var_not_negative (xs : list Binary64.f64) :
  Binary64.not_negative (Binary64.var xs) = true.
Proof.
  unfold Binary64.var. case_decide; [done|].
  apply div_not_negative; [|apply of_nat_not_negative].
  apply sum_not_negative, Forall_fmap, Forall_forall. intros x _. cbn.
  destruct (Binary64.is_nan x); [done|apply square_not_negative].
Qed.

Lemma var_few (xs : list Binary64.f64) :
  (length (filter (λ x, Binary64.is_nan x = false) xs) ≤ 1)%nat →
  Binary64.var xs = Binary64.nan.
Proof. intros H. unfold Binary64.var. by rewrite decide_True. Qed.

(** X6. Whatever the returns, the variance the script computes for a
    state is never negative: it is NaN, +0.0, a positive number or +inf,
    so that [v < 0] is false of it; and it is NaN when fewer than two
    returns that are not NaN are decoded as that state. *)
Theorem state_var_never_negative
    (returns : list Binary64.f64) (states : list Z) (k : Z) (v : Binary64.f64) :
  Binary64.state_var returns states k = Ok v →
  Binary64.not_negative v = true ∧
  Binary64.gt Binary64.zero v = false ∧
  ((length (filter (λ x, Binary64.is_nan x = false)
              (restrict returns states k)) ≤ 1)%nat → v = Binary64.nan).
Proof.
  unfold Binary64.state_var. case_decide; [|done]. intros [= <-].
  rewrite mask_list_restrict.
  split; [apply var_not_negative|].
  split; [apply not_negative_lt_zero, var_not_negative|apply var_few].
Qed.

Lemma state_var_never_negative_witness :
  let returns := [Binary64.of_Z (2 ^ 700); Binary64.of_Z (- 2 ^ 700);
                  Binary64.of_Z 3] in
  Binary64.state_var returns [0; 0; 1] 0 = Ok (S754_infinity false) ∧
  Binary64.gt Binary64.zero (S754_infinity false) = false ∧
  Binary64.state_var returns [0; 0; 1] 1 = Ok Binary64.nan.
Proof.
  pose (returns := [Binary64.of_Z (2 ^ 700); Binary64.of_Z (- 2 ^ 700);
                    Binary64.of_Z 3]).
  assert (Binary64.state_var returns [0; 0; 1] 0 = Ok (S754_infinity false))
    as H0 by (vm_compute; reflexivity).
  assert (Binary64.state_var returns [0; 0; 1] 1
          = Ok (Binary64.var (restrict returns [0; 0; 1] 1)))
    as H1 by (vm_compute; reflexivity).
  destruct (state_var_never_negative returns [0; 0; 1] 0 _ H0) as (_ & Hlt & _).
  destruct (state_var_never_negative returns [0; 0; 1] 1 _ H1) as (_ & _ & Hnan).
  cbv zeta. split; [exact H0|]. split; [exact Hlt|].
  etrans; [exact H1|]. apply (f_equal Ok), Hnan. vm_compute. lia.
Defined.


Lemma restrict_renumber {A} (obs : list A) (states : list Z) (k : Z) :
  restrict obs ((λ s, 1 - s) <$> states) k = restrict obs states (1 - k).
Proof.
  unfold restrict. revert obs.
  induction states as [|s states IH]; intros [|x obs]; csimpl; try done.
  rewrite !filter_cons. cbn [snd].
  destruct (decide (1 - s = k)), (decide (s = 1 - k)); try lia;
    csimpl; by rewrite IH.
Qed.

(** X7. The numbering of the two states does not matter as long as one
    variance is strictly larger than the other: a path with the numbers 0
    and 1 exchanged gets the labels exchanged as well, and the weekly
    table ends up with the same "state" column. *)
Theorem state_column_renumbering
    (fridays : frame) (rs : list fval) (states : list Z) (var_0 var_1 : fval) :
  columns fridays !! "returns" = Some (FloatCol rs) →
  length states = nrows fridays →
  Forall (λ s, s = 0 ∨ s = 1) states →
  state_var fridays states 0 = Ok var_0 →
  state_var fridays states 1 = Ok var_1 →
  fgt var_0 var_1 = true ∨ fgt var_1 var_0 = true →
  ∃ labels labels',
    regime_labels fridays states = Ok labels ∧
    regime_labels fridays ((λ s, 1 - s) <$> states) = Ok labels' ∧
    labels' !! 0 = labels !! 1 ∧
    labels' !! 1 = labels !! 0 ∧
    attach_state fridays ((λ s, 1 - s) <$> states) labels'
    = attach_state fridays states labels.
Proof.
  intros Hret Hlen Hbin H0 H1 Hcmp.
  rewrite (state_var_restrict _ _ _ Hret Hlen) in H0, H1.
  injection H0 as H0. injection H1 as H1.
  assert (length ((λ s, 1 - s) <$> states) = nrows fridays) as Hlen'
    by (by rewrite length_fmap).
  rewrite (regime_labels_cases _ _ _ Hret Hlen),
    (regime_labels_cases _ _ _ Hret Hlen'), !restrict_renumber.
  change (1 - 0) with 1. change (1 - 1) with 0. rewrite H0, H1.
  assert (∀ (l l' : gmap Z string),
            l' !! 0 = l !! 1 → l' !! 1 = l !! 0 →
            is_Some (l !! 0) → is_Some (l !! 1) →
            attach_state fridays ((λ s, 1 - s) <$> states) l'
            = attach_state fridays states l) as Hattach.
  { intros l l' E0 E1 [a Ha] [b Hb]. unfold attach_state, rename_categories.
    do 2 f_equal. rewrite <- list_fmap_compose.
    apply list_fmap_ext. intros i s Hs. cbn.
    rewrite Forall_lookup in Hbin.
    destruct (Hbin _ _ Hs) as [-> | ->].
    - change (1 - 0) with 1. by rewrite E1, Ha.
    - change (1 - 1) with 0. by rewrite E0, Hb. }
  destruct Hcmp as [Hgt|Hgt].
  - rewrite Hgt, (fgt_asym _ _ Hgt). eexists _, _.
    repeat split; [apply Hattach; done || by eexists].
  - rewrite Hgt, (fgt_asym _ _ Hgt). eexists _, _.
    repeat split; [apply Hattach; done || by eexists].
Qed.

Lemma state_column_renumbering_witness :
  let fridays := Standin.weekly "AAPL" [1; 2; 3; 4; 5] [1; -1; 5; -5; 0] in
  attach_state fridays [1; 1; 0; 0; 1] {[ 0 := "High Vol"; 1 := "Low Vol" ]}
  = attach_state fridays [0; 0; 1; 1; 0] {[ 1 := "High Vol"; 0 := "Low Vol" ]}.
Proof.
  destruct (state_column_renumbering
              (Standin.weekly "AAPL" [1; 2; 3; 4; 5] [1; -1; 5; -5; 0])
              (of_Z <$> [1; -1; 5; -5; 0]) [0; 0; 1; 1; 0] (of_Z 1) (of_Z 50))
    as (labels & labels' & Hl & Hl' & _ & _ & Heq).
  - reflexivity.
  - reflexivity.
  - by apply (bool_decide_unpack _).
  - by apply (bool_decide_unpack _).
  - by apply (bool_decide_unpack _).
  - right. vm_compute. reflexivity.
  - assert (regime_labels
              (Standin.weekly "AAPL" [1; 2; 3; 4; 5] [1; -1; 5; -5; 0])
              [0; 0; 1; 1; 0]
            = Ok {[ 1 := "High Vol"; 0 := "Low Vol" ]}) as E
      by (vm_compute; reflexivity).
    assert (regime_labels
              (Standin.weekly "AAPL" [1; 2; 3; 4; 5] [1; -1; 5; -5; 0])
              [1; 1; 0; 0; 1]
            = Ok {[ 0 := "High Vol"; 1 := "Low Vol" ]}) as E'
      by (vm_compute; reflexivity).
    rewrite E in Hl. injection Hl as <-.
    change ((λ s, 1 - s) <$> [0; 0; 1; 1; 0]) with [1; 1; 0; 0; 1] in *.
    rewrite E' in Hl'. injection Hl' as <-.
    exact Heq.
Defined.

(** On a tie the rule falls back on the state numbers, and the same
    exchange turns the column around. *)
Example renumbering_flips_a_tie :
  let fridays := Standin.weekly "AAPL" [1; 2; 3; 4] [3; -3; 3; -3] in
  (l ← regime_labels fridays [0; 0; 1; 1];
   t ← attach_state fridays [0; 0; 1; 1] l; getitem t "state")
  = Ok (CatCol (CStr <$> ["Low Vol"; "Low Vol"; "High Vol"; "High Vol"])) ∧
  (l ← regime_labels fridays [1; 1; 0; 0];
   t ← attach_state fridays [1; 1; 0; 0] l; getitem t "state")
  = Ok (CatCol (CStr <$> ["High Vol"; "High Vol"; "Low Vol"; "Low Vol"])).
Proof. split; vm_compute; reflexivity. Qed.

(** X8. For a path over the states 0 and 1 the "state" column is a
    faithful renaming of the path: every row reads "High Vol" or "Low Vol",
    namely the label of the row's state, and two rows read the same if and
    only if they were decoded as the same state. *)
Theorem state_column_reads_labels
    (fridays : frame) (rs : list fval) (states : list Z) :
  columns fridays !! "returns" = Some (FloatCol rs) →
  length states = nrows fridays →
  Forall (λ s, s = 0 ∨ s = 1) states →
  ∃ labels tbl vs,
    regime_labels fridays states = Ok labels ∧
    attach_state fridays states labels = Ok tbl ∧
    columns tbl !! "state" = Some (CatCol vs) ∧
    Forall (λ v, v = CStr "High Vol" ∨ v = CStr "Low Vol") vs ∧
    (∀ i s, states !! i = Some s → vs !! i = CStr <$> labels !! s) ∧
    (∀ i j s t, states !! i = Some s → states !! j = Some t →
                vs !! i = vs !! j ↔ s = t).
Proof.
  intros Hret Hlen Hbin.
  rewrite (regime_labels_cases _ _ _ Hret Hlen).
  set (labels := if fgt _ _ then _ else _).
  assert (labels !! 0 = Some "High Vol" ∧ labels !! 1 = Some "Low Vol" ∨
          labels !! 0 = Some "Low Vol" ∧ labels !! 1 = Some "High Vol") as Hlab
    by (unfold labels; destruct (fgt _ _); [by left|by right]).
  exists labels. unfold attach_state, setitem, rename_categories.
  cbn [col_length]. rewrite decide_True by (by rewrite length_fmap).
  eexists _, _. split; [done|]. split; [done|]. cbn [columns].
  split; [by rewrite lookup_insert_eq|].
  rewrite Forall_lookup in Hbin.
  assert (∀ i s, states !! i = Some s →
            ((λ s, match labels !! s with
                   | Some l => CStr l
                   | None => CInt s
                   end) <$> states) !! i = CStr <$> labels !! s) as Hrow.
  { intros i s Hs. rewrite list_lookup_fmap, Hs. cbn.
    destruct (Hbin _ _ Hs) as [-> | ->], Hlab as [[E0 E1]|[E0 E1]];
      by rewrite ?E0, ?E1. }
  split; [|split].
  - apply Forall_lookup. intros i v Hv.
    rewrite list_lookup_fmap in Hv.
    destruct (states !! i) as [s|] eqn:Hs; [|done].
    cbn in Hv. injection Hv as <-.
    destruct (Hbin _ _ Hs) as [-> | ->], Hlab as [[E0 E1]|[E0 E1]];
      rewrite ?E0, ?E1; auto.
  - exact Hrow.
  - intros i j s t Hs Ht. rewrite (Hrow _ _ Hs), (Hrow _ _ Ht).
    destruct (Hbin _ _ Hs) as [-> | ->], (Hbin _ _ Ht) as [-> | ->],
      Hlab as [[E0 E1]|[E0 E1]]; rewrite ?E0, ?E1; cbn; split; done.
Qed.

Lemma state_column_reads_labels_witness :
  let fridays := Standin.weekly "AAPL" [1; 2; 3; 4; 5] [1; -1; 5; -5; 0] in
  ∃ tbl vs,
    attach_state fridays [0; 0; 1; 1; 0] {[ 1 := "High Vol"; 0 := "Low Vol" ]}
    = Ok tbl ∧
    columns tbl !! "state" = Some (CatCol vs) ∧
    vs !! 0%nat = Some (CStr "Low Vol") ∧
    vs !! 2%nat = Some (CStr "High Vol") ∧
    (vs !! 0%nat = vs !! 4%nat ↔ (0 : Z) = 0).
Proof.
  destruct (state_column_reads_labels
              (Standin.weekly "AAPL" [1; 2; 3; 4; 5] [1; -1; 5; -5; 0])
              (of_Z <$> [1; -1; 5; -5; 0]) [0; 0; 1; 1; 0])
    as (labels & tbl & vs & Hl & Ht & Hcol & _ & Hrow & Hsame).
  - reflexivity.
  - reflexivity.
  - by apply (bool_decide_unpack _).
  - assert (regime_labels
              (Standin.weekly "AAPL" [1; 2; 3; 4; 5] [1; -1; 5; -5; 0])
              [0; 0; 1; 1; 0]
            = Ok {[ 1 := "High Vol"; 0 := "Low Vol" ]}) as E
      by (vm_compute; reflexivity).
    rewrite E in Hl. injection Hl as <-.
    exists tbl, vs. split; [done|]. split; [done|].
    split; [exact (Hrow 0%nat 0 eq_refl)|].
    split; [exact (Hrow 2%nat 1 eq_refl)|].
    exact (Hsame 0%nat 4%nat 0 0 eq_refl eq_refl).
Defined.

(** A state number other than 0 and 1 has no label and stays on its rows
    as the number. *)
Example unlabelled_state_passes_through :
  rename_categories {[ 1 := "High Vol"; 0 := "Low Vol" ]} [0; 2; 1]
  = CatCol [CStr "Low Vol"; CInt 2; CStr "High Vol"].
Proof. vm_compute. reflexivity. Qed.

(** ** Lines 44-57: the run as a whole *)

Section Run.
Context `{lib : Library}.
Variables (ticker : string) (cfg : Config) (ambient : rng) (df : frame).

Lemma state_var_numeric (fridays : frame) (c : column) (xs : list fval)
    (states : list Z) (k : Z) :
  columns fridays !! "returns" = Some c →
  col_floats c = Ok xs →
  length states = nrows fridays →
  ∃ v, state_var fridays states k = Ok v.
Proof using Type.
  intros Hc Hxs Hlen. unfold state_var, mask_rows.
  rewrite decide_True by (by rewrite length_fmap).
  cbn [mbind result_bind]. unfold getitem. cbn [columns].
  rewrite lookup_fmap, Hc. cbn [fmap option_fmap option_map].
  destruct c; [cbn; eauto..|done].
Qed.

Lemma returns_array_inv (fridays : frame) (X : list (list fval)) :
  returns_array fridays = Ok X →
  ∃ c xs, columns fridays !! "returns" = Some c ∧ col_floats c = Ok xs ∧
          X = reshape_col xs.
Proof using Type.
  unfold returns_array, getitem.
  destruct (columns fridays !! "returns") as [c|]; [|done]. cbn.
  destruct (col_floats c) as [xs|] eqn:Hxs; [|done]. cbn.
  intros [= <-]. eauto.
Qed.

(** What a run that ends well went through. *)
Lemma run_ok_inv (out : output) :
  outcome (run ticker cfg ambient df) = Ok out →
  ∃ fridays X,
    prepare ticker df = Ok fridays ∧
    returns_array fridays = Ok X ∧
    fit cfg (check_random_state (random_state cfg) ambient) X = Ok (model out) ∧
    predict (model out) X = Ok (states out) ∧
    regime_labels fridays (states out) = Ok (labels out) ∧
    attach_state fridays (states out) (labels out) = Ok (table out) ∧
    calls (run ticker cfg ambient df) = [CallFit cfg X; CallPredict X].
Proof using Type.
  unfold run, lift, hmm_fit, hmm_predict.
  destruct (prepare ticker df) as [fridays|e] eqn:Hprep; cbn; [|done].
  destruct (returns_array fridays) as [X|e] eqn:HX; cbn; [|done].
  destruct (fit _ _ X) as [m|e] eqn:Hfit; cbn; [|done].
  destruct (predict m X) as [sts|e] eqn:Hpred; cbn; [|done].
  destruct (regime_labels fridays sts) as [lab|e] eqn:Hlab; cbn; [|done].
  destruct (attach_state fridays sts lab) as [tbl|e] eqn:Htbl; cbn; [|done].
  intros [= <-]. cbn. exists fridays, X. repeat split; done.
Qed.

(** X9. When lines 35-44 give the array [X], [fit] returns an estimator
    and its [predict] returns a path with one state per row, the run
    ends well: it has called the estimator exactly twice, [fit] and then
    [predict] on the same array, and it returns that estimator and path
    with the labels and the table lines 50-57 compute from them. *)
Theorem run_succeeds (fridays : frame) (X : list (list fval))
    (m : GaussianHMM) (sts : list Z) :
  prepare ticker df = Ok fridays →
  returns_array fridays = Ok X →
  fit cfg (check_random_state (random_state cfg) ambient) X = Ok m →
  predict m X = Ok sts →
  length sts = nrows fridays →
  ∃ lab tbl,
    regime_labels fridays sts = Ok lab ∧
    attach_state fridays sts lab = Ok tbl ∧
    run ticker cfg ambient df
    = ([CallFit cfg X; CallPredict X], Ok (mkOutput m sts lab tbl)).
Proof using Type.
  intros Hprep HX Hfit Hpred Hlen.
  destruct (returns_array_inv _ _ HX) as (c & xs & Hc & Hxs & _).
  destruct (state_var_numeric _ _ _ _ 0 Hc Hxs Hlen) as [v0 H0].
  destruct (state_var_numeric _ _ _ _ 1 Hc Hxs Hlen) as [v1 H1].
  assert (∃ lab, regime_labels fridays sts = Ok lab) as [lab Hlab]
    by (unfold regime_labels; rewrite H0, H1; cbn; eauto).
  assert (∃ tbl, attach_state fridays sts lab = Ok tbl) as [tbl Htbl].
  { unfold attach_state, setitem, rename_categories. cbn [col_length].
    rewrite decide_True by (by rewrite length_fmap). eauto. }
  exists lab, tbl. split; [done|]. split; [done|].
  unfold run, lift, hmm_fit, hmm_predict.
  rewrite Hprep. cbn. rewrite HX. cbn. rewrite Hfit. cbn.
  rewrite Hpred. cbn. rewrite Hlab. cbn. by rewrite Htbl.
Qed.

End Run.

Lemma daily_prepared :
  ∃ fridays,
    prepare "AAPL" (Standin.daily "AAPL") = Ok fridays ∧
    returns_array fridays = Ok [[of_Z 25]; [of_Z (-25)]] ∧
    nrows fridays = 2%nat.
Proof.
  pose proof (proj1 returns_example) as HX.
  assert ((f ← prepare "AAPL" (Standin.daily "AAPL"); Ok (nrows f)) = Ok 2%nat)
    as Hrows by (vm_compute; reflexivity).
  destruct (prepare "AAPL" (Standin.daily "AAPL")) as [fridays|]; [|done].
  exists fridays. cbn in HX, Hrows. by injection Hrows as ->.
Qed.

Lemma run_succeeds_witness :
  ∃ fridays lab tbl,
    prepare "AAPL" (Standin.daily "AAPL") = Ok fridays ∧
    regime_labels fridays [1; 1] = Ok lab ∧
    attach_state fridays [1; 1] lab = Ok tbl ∧
    @run Standin.strict "AAPL" config 0 (Standin.daily "AAPL")
    = ([CallFit config [[of_Z 25]; [of_Z (-25)]];
        CallPredict [[of_Z 25]; [of_Z (-25)]]],
       Ok (@mkOutput Standin.strict 2606 [1; 1] lab tbl)).
Proof.
  destruct daily_prepared as (fridays & Hprep & HX & Hrows).
  destruct (@run_succeeds Standin.strict "AAPL" config 0 (Standin.daily "AAPL")
              fridays _ 2606 [1; 1] Hprep HX)
    as (lab & tbl & Hlab & Htbl & Hrun).
  - reflexivity.
  - by apply (bool_decide_unpack _).
  - by rewrite Hrows.
  - by exists fridays, lab, tbl.
Defined.

(** ** Lines 62-87: the chart *)

Import Chart.

Lemma add_segments_Forall2 (fridays : frame) (range : list nat)
    (traces fig : list Scatter) :
  Forall2 (λ i t, segment fridays i = Done t) range traces →
  add_segments fridays range fig = Done (fig ++ traces).
Proof.
  intros Hall. revert fig.
  induction Hall as [|i t range traces Hi Hall IH]; intros fig; cbn.
  - by rewrite app_nil_r.
  - rewrite Hi. cbn. rewrite IH. by rewrite <- app_assoc.
Qed.

Lemma add_segments_inv (fridays : frame) (range : list nat)
    (fig out : list Scatter) :
  add_segments fridays range fig = Done out →
  ∃ traces,
    out = fig ++ traces ∧
    Forall2 (λ i t, segment fridays i = Done t) range traces.
Proof.
  revert fig. induction range as [|i range IH]; intros fig; cbn.
  - intros [= <-]. exists []. by rewrite app_nil_r.
  - destruct (segment fridays i) as [t|e] eqn:Hi; cbn; [|done].
    intros (traces & -> & Hall)%IH. exists (t :: traces).
    rewrite <- app_assoc. split; [done|]. by constructor.
Qed.

(** The trace of pass [i] on a table that has the two columns and a state
    entry in row [i]. *)
Lemma segment_ok (fridays : frame) (state returns : column) (i : nat) (v : cell) :
  columns fridays !! "state" = Some state →
  columns fridays !! "returns" = Some returns →
  col_cells state !! i = Some v →
  segment fridays i
  = Done {| x := Some <$> slice i (i + 2) (index fridays);
            y := Some <$> slice i (i + 2) (col_cells returns);
            mode := "lines";
            line := {| color := if cell_eq_str v "High Vol"
                                then "yellow" else "blue";
                       width := 2 |};
            showlegend := Some false;
            name := None |}.
Proof.
  intros Hst Hret Hv. unfold segment, getitem, iloc.
  by rewrite Hst, Hret; cbn; rewrite Hv.
Qed.

Lemma slice_pair {A} (l : list A) (i : nat) (a b : A) :
  l !! i = Some a → l !! S i = Some b → slice i (i + 2) l = [a; b].
Proof.
  intros Ha Hb. unfold slice. replace (i + 2 - i)%nat with 2%nat by lia.
  apply list_eq. intros [|[|j]].
  - rewrite lookup_take_lt, lookup_drop, Nat.add_0_r by lia. done.
  - rewrite lookup_take_lt, lookup_drop by lia.
    by replace (i + 1)%nat with (S i) by lia.
  - rewrite lookup_take_ge by lia. done.
Qed.

(** The figure of a table whose state column covers its rows. *)
Lemma chart_ok (fridays : frame) (state returns : column) :
  columns fridays !! "state" = Some state →
  columns fridays !! "returns" = Some returns →
  (nrows fridays ≤ col_length state)%nat →
  ∃ traces,
    Forall2 (λ i t, segment fridays i = Done t)
      (seq 0 (nrows fridays - 1)) traces ∧
    chart fridays
    = Done {| data := traces ++ [legend_entry "yellow" "High Volatility";
                                 legend_entry "blue" "Low Volatility"];
              layout := {| height := Some 450;
                           xaxis_title := Some "Date";
                           yaxis_title := Some "Returns" |} |}.
Proof.
  intros Hst Hret Hlen.
  assert (length (col_cells state) = col_length state) as Hcells
    by (destruct state; apply length_fmap).
  assert (∀ range, Forall (λ i, i < nrows fridays - 1)%nat range →
            ∃ traces, Forall2 (λ i t, segment fridays i = Done t) range traces)
    as Hrange.
  { induction 1 as [|i range Hi _ [traces IH]]; [by exists []|].
    destruct (lookup_lt_is_Some_2 (col_cells state) i ltac:(lia)) as [v Hv].
    eexists (_ :: traces). constructor; [|done].
    by apply (segment_ok _ _ _ _ _ Hst Hret Hv). }
  destruct (Hrange (seq 0 (nrows fridays - 1))) as [traces Htraces].
  { apply Forall_forall. intros i Hi%list_elem_of_In%in_seq. lia. }
  exists traces. split; [done|]. unfold chart.
  rewrite (add_segments_Forall2 _ _ _ _ Htraces). cbn.
  by rewrite <- app_assoc.
Qed.

Lemma chart_trace_lookup (fridays : frame) (traces : list Scatter) (i : nat) :
  Forall2 (λ i t, segment fridays i = Done t)
    (seq 0 (nrows fridays - 1)) traces →
  (i < nrows fridays - 1)%nat →
  ∃ t, traces !! i = Some t ∧ segment fridays i = Done t.
Proof.
  intros Hall Hi.
  destruct (Forall2_lookup_l _ _ _ i i Hall) as (t & Ht & Hseg);
    [by apply lookup_seq_lt|]. eauto.
Qed.

(** X11. On a table with a state entry for every row the chart is drawn
    without an exception and holds one trace per pair of consecutive rows
    followed by the two legend entries.  Trace [i] is the line from row
    [i] to row [i + 1], dates against returns, kept out of the legend,
    yellow when the state of row [i] reads "High Vol" and blue
    otherwise. *)
Theorem chart_traces (fridays : frame) (state returns : column) :
  columns fridays !! "state" = Some state →
  columns fridays !! "returns" = Some returns →
  (nrows fridays ≤ col_length state)%nat →
  ∃ fig,
    chart fridays = Done fig ∧
    length (data fig) = (nrows fridays - 1 + 2)%nat ∧
    drop (nrows fridays - 1) (data fig)
    = [legend_entry "yellow" "High Volatility";
       legend_entry "blue" "Low Volatility"] ∧
    ∀ i t1 t2 r1 r2 v,
      index fridays !! i = Some t1 → index fridays !! S i = Some t2 →
      col_cells returns !! i = Some r1 → col_cells returns !! S i = Some r2 →
      col_cells state !! i = Some v →
      data fig !! i
      = Some {| x := [Some t1; Some t2];
                y := [Some r1; Some r2];
                mode := "lines";
                line := {| color := if cell_eq_str v "High Vol"
                                    then "yellow" else "blue";
                           width := 2 |};
                showlegend := Some false;
                name := None |}.
Proof.
  intros Hst Hret Hlen.
  destruct (chart_ok _ _ _ Hst Hret Hlen) as (traces & Hall & Hchart).
  assert (length traces = (nrows fridays - 1)%nat) as Htr
    by (by rewrite <- (Forall2_length _ _ _ Hall), length_seq).
  eexists. split; [exact Hchart|]. cbn [data].
  split; [rewrite length_app, Htr; cbn; lia|].
  split; [by rewrite <- Htr, drop_app_length|].
  intros i t1 t2 r1 r2 v H1 H2 Hr1 Hr2 Hv.
  assert (i < nrows fridays - 1)%nat as Hi
    by (apply lookup_lt_Some in H2; unfold nrows; lia).
  destruct (chart_trace_lookup _ _ _ Hall Hi) as (t & Ht & Hseg).
  rewrite lookup_app_l, Ht by lia. f_equal.
  rewrite (segment_ok _ _ _ _ _ Hst Hret Hv) in Hseg. injection Hseg as <-.
  by rewrite (slice_pair _ _ _ _ H1 H2), (slice_pair _ _ _ _ Hr1 Hr2).
Qed.

Lemma chart_traces_witness :
  let fridays := labelled "AAPL" [101; 100; 105] [1; -1; 5]
                   ["Low Vol"; "High Vol"; "High Vol"] in
  ∃ fig,
    chart fridays = Done fig ∧
    length (data fig) = 4%nat ∧
    data fig !! 1%nat
    = Some {| x := [Some 16451; Some 16458];
              y := [Some (CellFloat (of_Z (-1))); Some (CellFloat (of_Z 5))];
              mode := "lines";
              line := {| color := "yellow"; width := 2 |};
              showlegend := Some false;
              name := None |}.
Proof.
  destruct (chart_traces
              (labelled "AAPL" [101; 100; 105] [1; -1; 5]
                 ["Low Vol"; "High Vol"; "High Vol"])
              (CatCol (CStr <$> ["Low Vol"; "High Vol"; "High Vol"]))
              (FloatCol (of_Z <$> [1; -1; 5])))
    as (fig & Hchart & Hlen & _ & Htrace).
  - reflexivity.
  - reflexivity.
  - cbn. lia.
  - exists fig. split; [done|]. split; [done|].
    by apply (Htrace 1%nat 16451 16458 _ _ (CellCat (CStr "High Vol"))).
Defined.

(** X12. On a table whose state and returns columns have one entry per
    row the segments form one connected line: each trace starts at the
    point where the trace before it ends. *)
Theorem chart_is_connected (fridays : frame) (state returns : column) :
  columns fridays !! "state" = Some state →
  columns fridays !! "returns" = Some returns →
  col_length state = nrows fridays →
  col_length returns = nrows fridays →
  ∃ fig,
    chart fridays = Done fig ∧
    ∀ i s1 s2,
      (S i < nrows fridays - 1)%nat →
      data fig !! i = Some s1 →
      data fig !! S i = Some s2 →
      is_Some (head (x s2)) ∧
      last (x s1) = head (x s2) ∧
      last (y s1) = head (y s2).
Proof.
  intros Hst Hret Hlst Hlret.
  destruct (chart_ok _ _ _ Hst Hret ltac:(lia)) as (traces & Hall & Hchart).
  assert (length traces = (nrows fridays - 1)%nat) as Htr
    by (by rewrite <- (Forall2_length _ _ _ Hall), length_seq).
  assert (length (col_cells state) = nrows fridays) as Hcst
    by (rewrite <- Hlst; destruct state; apply length_fmap).
  assert (length (col_cells returns) = nrows fridays) as Hcret
    by (rewrite <- Hlret; destruct returns; apply length_fmap).
  eexists. split; [exact Hchart|]. cbn [data].
  intros i s1 s2 Hi. rewrite !lookup_app_l by lia. intros Hs1 Hs2.
  destruct (chart_trace_lookup _ _ i Hall ltac:(lia)) as (t1 & Ht1 & Hseg1).
  destruct (chart_trace_lookup _ _ (S i) Hall Hi) as (t2 & Ht2 & Hseg2).
  rewrite Hs1 in Ht1. injection Ht1 as <-.
  rewrite Hs2 in Ht2. injection Ht2 as <-.
  destruct (lookup_lt_is_Some_2 (col_cells state) i ltac:(lia)) as [v1 Hv1].
  destruct (lookup_lt_is_Some_2 (col_cells state) (S i) ltac:(lia)) as [v2 Hv2].
  destruct (lookup_lt_is_Some_2 (index fridays) i) as [a Ha];
    [unfold nrows in *; lia|].
  destruct (lookup_lt_is_Some_2 (index fridays) (S i)) as [b Hb];
    [unfold nrows in *; lia|].
  destruct (lookup_lt_is_Some_2 (index fridays) (S (S i))) as [c Hc];
    [unfold nrows in *; lia|].
  destruct (lookup_lt_is_Some_2 (col_cells returns) i ltac:(lia)) as [ra Hra].
  destruct (lookup_lt_is_Some_2 (col_cells returns) (S i) ltac:(lia))
    as [rb Hrb].
  destruct (lookup_lt_is_Some_2 (col_cells returns) (S (S i)) ltac:(lia))
    as [rc Hrc].
  rewrite (segment_ok _ _ _ _ _ Hst Hret Hv1),
    (slice_pair _ _ _ _ Ha Hb), (slice_pair _ _ _ _ Hra Hrb) in Hseg1.
  rewrite (segment_ok _ _ _ _ _ Hst Hret Hv2),
    (slice_pair _ _ _ _ Hb Hc), (slice_pair _ _ _ _ Hrb Hrc) in Hseg2.
  injection Hseg1 as <-. injection Hseg2 as <-. cbn. eauto.
Qed.

Lemma chart_is_connected_witness :
  let fridays := labelled "AAPL" [101; 100; 105] [1; -1; 5]
                   ["Low Vol"; "High Vol"; "High Vol"] in
  ∃ fig s1 s2,
    chart fridays = Done fig ∧
    data fig !! 0%nat = Some s1 ∧
    data fig !! 1%nat = Some s2 ∧
    last (x s1) = head (x s2) ∧
    last (y s1) = head (y s2).
Proof.
  destruct (chart_is_connected
              (labelled "AAPL" [101; 100; 105] [1; -1; 5]
                 ["Low Vol"; "High Vol"; "High Vol"])
              (CatCol (CStr <$> ["Low Vol"; "High Vol"; "High Vol"]))
              (FloatCol (of_Z <$> [1; -1; 5])))
    as (fig & Hchart & Hconn); [reflexivity..|].
  assert (chart (labelled "AAPL" [101; 100; 105] [1; -1; 5]
                   ["Low Vol"; "High Vol"; "High Vol"])
          ≫= (λ f, Done (length (data f))) = Done 4%nat) as Hlen
    by (vm_compute; reflexivity).
  rewrite Hchart in Hlen. cbn in Hlen. injection Hlen as Hlen.
  destruct (lookup_lt_is_Some_2 (data fig) 0 ltac:(lia)) as [s1 Hs1].
  destruct (lookup_lt_is_Some_2 (data fig) 1 ltac:(lia)) as [s2 Hs2].
  exists fig, s1, s2. split; [done|]. split; [done|]. split; [done|].
  destruct (Hconn 0%nat s1 s2) as (_ & Hx & Hy); [cbn; lia|done..|].
  by split.
Defined.

Lemma chart_of_traces (fridays : frame) (traces : list Scatter) :
  Forall2 (λ i t, segment fridays i = Done t)
    (seq 0 (nrows fridays - 1)) traces →
  chart fridays
  = Done {| data := traces ++ [legend_entry "yellow" "High Volatility";
                               legend_entry "blue" "Low Volatility"];
            layout := {| height := Some 450;
                         xaxis_title := Some "Date";
                         yaxis_title := Some "Returns" |} |}.
Proof.
  intros Hall. unfold chart.
  rewrite (add_segments_Forall2 _ _ _ _ Hall). cbn. by rewrite <- app_assoc.
Qed.

(** X13. The state of the last row colours nothing: a table that differs
    from another one only in the last entry of the state column gives the
    same figure. *)
Theorem chart_ignores_last_state (fridays : frame) (state state' returns : column) :
  columns fridays !! "state" = Some state →
  columns fridays !! "returns" = Some returns →
  (nrows fridays ≤ col_length state)%nat →
  take (nrows fridays - 1) (col_cells state')
  = take (nrows fridays - 1) (col_cells state) →
  chart {| index := index fridays;
           columns := <["state" := state']> (columns fridays) |}
  = chart fridays.
Proof.
  intros Hst Hret Hlen Htake.
  destruct (chart_ok _ _ _ Hst Hret Hlen) as (traces & Hall & ->).
  apply chart_of_traces. unfold nrows. cbn [index]. fold (nrows fridays).
  apply Forall2_same_length_lookup_2; [by eapply Forall2_length|].
  intros i j t Hj Ht. apply lookup_seq in Hj as [-> Hi]. cbn in *.
  destruct (chart_trace_lookup _ _ i Hall Hi) as (t' & Ht' & Hseg).
  rewrite Ht in Ht'. injection Ht' as <-.
  assert (length (col_cells state) = col_length state) as Hcells
    by (destruct state; apply length_fmap).
  destruct (lookup_lt_is_Some_2 (col_cells state) i ltac:(lia)) as [v Hv].
  assert (col_cells state' !! i = Some v) as Hv'.
  { rewrite <- (lookup_take_lt _ (nrows fridays - 1)), Htake by done.
    by rewrite lookup_take_lt. }
  rewrite (segment_ok _ _ _ _ _ Hst Hret Hv) in Hseg. rewrite <- Hseg.
  rewrite (segment_ok
             {| index := index fridays;
                columns := <["state" := state']> (columns fridays) |}
             state' returns i v); cbn [columns]; [done|..|done].
  - by rewrite lookup_insert_eq.
  - by rewrite lookup_insert_ne.
Qed.

Lemma chart_ignores_last_state_witness :
  chart (labelled "AAPL" [101; 100; 105] [1; -1; 5]
           ["Low Vol"; "High Vol"; "Low Vol"])
  = chart (labelled "AAPL" [101; 100; 105] [1; -1; 5]
             ["Low Vol"; "High Vol"; "High Vol"]).
Proof.
  rewrite <- (chart_ignores_last_state
                (labelled "AAPL" [101; 100; 105] [1; -1; 5]
                   ["Low Vol"; "High Vol"; "High Vol"])
                (CatCol (CStr <$> ["Low Vol"; "High Vol"; "High Vol"]))
                (CatCol (CStr <$> ["Low Vol"; "High Vol"; "Low Vol"]))
                (FloatCol (of_Z <$> [1; -1; 5])));
    [|reflexivity|reflexivity|cbn; lia|reflexivity].
  reflexivity.
Defined.

Lemma attach_state_inv (fridays tbl : frame) (sts : list Z)
    (lab : gmap Z string) :
  attach_state fridays sts lab = Ok tbl →
  length sts = nrows fridays ∧
  tbl = {| index := index fridays;
           columns := <["state" := rename_categories lab sts]> (columns fridays) |}.
Proof.
  unfold attach_state, setitem, rename_categories. cbn [col_length].
  rewrite length_fmap. case_decide; [|done]. by intros [= <-].
Qed.

(** X14. After line 57 the chart follows the labels: the line that leaves
    row [i] is yellow exactly when the label of the state decoded for that
    row is "High Vol", and blue in every other case, a state without a
    label included. *)
Theorem chart_colours_follow_labels
    (fridays tbl : frame) (returns : column) (sts : list Z)
    (lab : gmap Z string) :
  columns fridays !! "returns" = Some returns →
  attach_state fridays sts lab = Ok tbl →
  ∃ fig,
    chart tbl = Done fig ∧
    ∀ i s t,
      (i < nrows fridays - 1)%nat →
      sts !! i = Some s →
      data fig !! i = Some t →
      color (line t)
      = if bool_decide (lab !! s = Some "High Vol") then "yellow" else "blue".
Proof.
  intros Hret [Hlen ->]%attach_state_inv.
  set (tbl := {| index := index fridays; columns := _ |}).
  assert (columns tbl !! "state" = Some (rename_categories lab sts)) as Hst
    by (cbn; by rewrite lookup_insert_eq).
  assert (columns tbl !! "returns" = Some returns) as Hret'
    by (cbn; by rewrite lookup_insert_ne).
  destruct (chart_ok tbl _ _ Hst Hret') as (traces & Hall & Hchart).
  { unfold nrows. cbn. rewrite length_fmap. unfold nrows in Hlen. lia. }
  eexists. split; [exact Hchart|]. cbn [data].
  intros i s t Hi Hs Ht.
  assert (length traces = (nrows fridays - 1)%nat) as Htr
    by (by rewrite <- (Forall2_length _ _ _ Hall), length_seq).
  rewrite lookup_app_l in Ht by lia.
  destruct (chart_trace_lookup tbl _ i Hall Hi) as (t' & Ht' & Hseg).
  rewrite Ht in Ht'. injection Ht' as <-.
  rewrite (segment_ok tbl _ _ i
             (CellCat (match lab !! s with
                       | Some l => CStr l
                       | None => CInt s
                       end)) Hst Hret') in Hseg.
  2:{ cbn. by rewrite !list_lookup_fmap, Hs. }
  injection Hseg as <-. cbn.
  destruct (lab !! s) as [l|]; cbn.
  - destruct (decide (l = "High Vol")) as [->|Hne].
    + by rewrite !bool_decide_eq_true_2.
    + rewrite !bool_decide_eq_false_2; [done|congruence|done].
  - by rewrite bool_decide_eq_false_2.
Qed.

Lemma chart_colours_follow_labels_witness :
  let fridays := Standin.weekly "AAPL" [1; 2; 3; 4; 5] [1; -1; 5; -5; 0] in
  ∃ tbl fig t,
    attach_state fridays [0; 0; 1; 1; 0] {[ 1 := "High Vol"; 0 := "Low Vol" ]}
    = Ok tbl ∧
    chart tbl = Done fig ∧
    data fig !! 2%nat = Some t ∧
    color (line t) = "yellow".
Proof.
  assert (∃ tbl, attach_state
                   (Standin.weekly "AAPL" [1; 2; 3; 4; 5] [1; -1; 5; -5; 0])
                   [0; 0; 1; 1; 0] {[ 1 := "High Vol"; 0 := "Low Vol" ]}
                 = Ok tbl) as [tbl Htbl] by (by eexists).
  destruct (chart_colours_follow_labels
              (Standin.weekly "AAPL" [1; 2; 3; 4; 5] [1; -1; 5; -5; 0]) tbl
              (FloatCol (of_Z <$> [1; -1; 5; -5; 0]))
              [0; 0; 1; 1; 0] {[ 1 := "High Vol"; 0 := "Low Vol" ]}
              eq_refl Htbl) as (fig & Hchart & Hcol).
  assert (chart tbl ≫= (λ f, Done (length (data f))) = Done 6%nat) as Hlen.
  { apply attach_state_inv in Htbl as [_ ->]. vm_compute. reflexivity. }
  rewrite Hchart in Hlen. cbn in Hlen. injection Hlen as Hlen.
  destruct (lookup_lt_is_Some_2 (data fig) 2 ltac:(lia)) as [t Ht].
  exists tbl, fig, t. split; [done|]. split; [done|]. split; [done|].
  by rewrite (Hcol 2%nat 1 t ltac:(cbn; lia) eq_refl Ht).
Defined.

(** X15. The chart cannot fail after a run that ended well: on the table
    such a run returns, the figure is drawn without an exception, with
    one trace per pair of consecutive weeks and the two legend entries. *)
Theorem chart_after_run `{lib : Library}
    (ticker : string) (cfg : Config) (ambient : rng) (df : frame)
    (out : output) :
  outcome (run ticker cfg ambient df) = Ok out →
  ∃ fig,
    chart (table out) = Done fig ∧
    length (data fig) = (length (states out) - 1 + 2)%nat.
Proof.
  intros (fridays & X & _ & HX & _ & _ & _ & Htbl & _)%run_ok_inv.
  destruct (returns_array_inv _ _ HX) as (c & xs & Hc & _ & _).
  apply attach_state_inv in Htbl as [Hlen Htbl].
  assert (columns (table out) !! "state"
          = Some (rename_categories (labels out) (states out))) as Hst
    by (rewrite Htbl; cbn; by rewrite lookup_insert_eq).
  assert (columns (table out) !! "returns" = Some c) as Hret
    by (rewrite Htbl; cbn; by rewrite lookup_insert_ne).
  assert (nrows (table out) = length (states out)) as Hrows
    by (rewrite Htbl; unfold nrows in *; cbn; lia).
  destruct (chart_ok _ _ _ Hst Hret) as (traces & Hall & Hchart).
  { rewrite Hrows. cbn. by rewrite length_fmap. }
  eexists. split; [exact Hchart|]. cbn [data].
  rewrite length_app, <- (Forall2_length _ _ _ Hall), length_seq, Hrows.
  cbn. lia.
Qed.

Lemma chart_after_run_witness :
  ∃ out fig,
    outcome (@run Standin.strict "AAPL" config 0 (Standin.daily "AAPL"))
    = Ok out ∧
    chart (table out) = Done fig ∧
    length (data fig) = 3%nat.
Proof.
  assert (∃ out,
            outcome (@run Standin.strict "AAPL" config 0 (Standin.daily "AAPL"))
            = Ok out ∧ length (states out) = 2%nat) as (out & Hout & Hlen).
  { assert ((states <$> outcome (@run Standin.strict "AAPL" config 0
                                   (Standin.daily "AAPL")) : result _)
            = Ok [1; 1]) as Hst by (vm_compute; reflexivity).
    destruct (outcome _) as [out|]; [|done].
    exists out. cbn in Hst. by injection Hst as ->. }
  destruct (@chart_after_run Standin.strict _ _ _ _ _ Hout) as (fig & Hfig & Hn).
  exists out, fig. split; [done|]. split; [done|]. by rewrite Hn, Hlen.
Defined.

(** X16. A table with at most one row gives a figure with the two legend
    entries and nothing else, whatever its columns, since the loop body
    never runs; with two rows or more and no "state" column the first
    pass of the loop raises a KeyError. *)
Theorem chart_edge_cases (fridays : frame) :
  ((nrows fridays ≤ 1)%nat →
   chart fridays
   = Done {| data := [legend_entry "yellow" "High Volatility";
                      legend_entry "blue" "Low Volatility"];
             layout := {| height := Some 450;
                          xaxis_title := Some "Date";
                          yaxis_title := Some "Returns" |} |}) ∧
  ((2 ≤ nrows fridays)%nat →
   columns fridays !! "state" = None →
   chart fridays = Raise (FrameError (KeyError "state"))).
Proof.
  split.
  - intros Hn. unfold chart.
    by replace (nrows fridays - 1)%nat with 0%nat by lia.
  - intros Hn Hst. unfold chart.
    destruct (nrows fridays - 1)%nat as [|n] eqn:E; [lia|].
    cbn. unfold segment, getitem. by rewrite Hst.
Qed.

Lemma chart_edge_cases_witness :
  (fig ← chart (Standin.empty "AAPL"); Done (length (data fig))) = Done 2%nat ∧
  chart (Standin.weekly "AAPL" [1; 2] [1; 2])
  = Raise (FrameError (KeyError "state")).
Proof.
  destruct (chart_edge_cases (Standin.empty "AAPL")) as [Hsmall _].
  destruct (chart_edge_cases (Standin.weekly "AAPL" [1; 2] [1; 2]))
    as [_ Hmissing].
  split.
  - by rewrite Hsmall by (cbn; lia).
  - apply Hmissing; [cbn; lia|reflexivity].
Defined.

(** ** Lines 50-55 once more: which state is "High Vol" *)

(** X17. The state named "High Vol" is never the one with the smaller
    computed variance, and state 0 is named "High Vol" only when its
    computed variance is strictly the larger; on a tie, and when a
    variance is NaN, it is state 1. *)
Theorem high_vol_never_smaller
    (returns : list Binary64.f64) (states : list Z)
    (lab : gmap Z string) (h l : Z) :
  Binary64.regime_labels returns states = Ok lab →
  lab !! h = Some "High Vol" →
  lab !! l = Some "Low Vol" →
  ∃ var_h var_l,
    Binary64.state_var returns states h = Ok var_h ∧
    Binary64.state_var returns states l = Ok var_l ∧
    Binary64.gt var_l var_h = false ∧
    (h = 0 → Binary64.gt var_h var_l = true).
Proof.
  intros Hlab Hh Hl.
  assert (length states = length returns) as Hlen.
  { unfold Binary64.regime_labels, Binary64.state_var in Hlab.
    by case_decide. }
  rewrite binary64_regime_labels in Hlab by done.
  set (var_0 := Binary64.var (restrict returns states 0)) in *.
  set (var_1 := Binary64.var (restrict returns states 1)) in *.
  destruct (Binary64.gt var_0 var_1) eqn:Hgt; injection Hlab as <-.
  - apply lookup_insert_Some in Hh as [[<- _]|[_ Hh]];
      [|by apply lookup_singleton_Some in Hh as [_ ?]].
    apply lookup_insert_Some in Hl as [[_ ?]|[_ Hl]]; [done|].
    apply lookup_singleton_Some in Hl as [<- _].
    exists var_0, var_1. rewrite !binary64_state_var by done.
    repeat split; [by apply gt_asym|done].
  - apply lookup_insert_Some in Hh as [[<- _]|[_ Hh]];
      [|by apply lookup_singleton_Some in Hh as [_ ?]].
    apply lookup_insert_Some in Hl as [[_ ?]|[_ Hl]]; [done|].
    apply lookup_singleton_Some in Hl as [<- _].
    exists var_1, var_0. rewrite !binary64_state_var by done.
    repeat split; done.
Qed.

Lemma high_vol_never_smaller_witness :
  let returns := [Binary64.decimal 118 2; Binary64.decimal (-82) 2;
                  Binary64.decimal 37 2; Binary64.decimal (-163) 2] in
  Binary64.state_var returns [0; 0; 1; 1] 0 = Ok (Binary64.of_Z 2) ∧
  Binary64.state_var returns [0; 0; 1; 1] 1
  = Ok (SFpred 53 1024 (Binary64.of_Z 2)) ∧
  Binary64.gt (SFpred 53 1024 (Binary64.of_Z 2)) (Binary64.of_Z 2) = false ∧
  Binary64.gt (Binary64.of_Z 2) (SFpred 53 1024 (Binary64.of_Z 2)) = true.
Proof.
  pose (returns := [Binary64.decimal 118 2; Binary64.decimal (-82) 2;
                    Binary64.decimal 37 2; Binary64.decimal (-163) 2]).
  destruct (high_vol_never_smaller returns [0; 0; 1; 1]
              {[ 0 := "High Vol"; 1 := "Low Vol" ]} 0 1)
    as (var_h & var_l & Hh & Hl & Hle & Hgt).
  - vm_compute. reflexivity.
  - reflexivity.
  - reflexivity.
  - assert (var_h = Binary64.of_Z 2) as ->.
    { assert (Binary64.state_var returns [0; 0; 1; 1] 0 = Ok (Binary64.of_Z 2))
        as H by (vm_compute; reflexivity).
      rewrite H in Hh. by injection Hh. }
    assert (var_l = SFpred 53 1024 (Binary64.of_Z 2)) as ->.
    { assert (Binary64.state_var returns [0; 0; 1; 1] 1
              = Ok (SFpred 53 1024 (Binary64.of_Z 2)))
        as H by (vm_compute; reflexivity).
      rewrite H in Hl. by injection Hl. }
    cbv zeta. split; [exact Hh|]. split; [exact Hl|].
    split; [exact Hle|by apply Hgt].
Defined.

(** X18. In float64 as in the table model: for every returns column and
    every path of the same length the labelling step ends without an
    exception and labels exactly the states 0 and 1; the variance of a
    state the path never visits is NaN; state 0 is "High Vol" when
    [var_0 > var_1]; and whenever that comparison is false, on a computed
    tie and as soon as one variance is NaN, state 1 is "High Vol" and
    state 0 "Low Vol". *)
Theorem binary64_labels_default
    (returns : list Binary64.f64) (states : list Z) :
  length states = length returns →
  ∃ var_0 var_1 lab,
    Binary64.state_var returns states 0 = Ok var_0 ∧
    Binary64.state_var returns states 1 = Ok var_1 ∧
    Binary64.regime_labels returns states = Ok lab ∧
    dom lab = {[ 0; 1 ]} ∧
    (¬ visited states 0 → var_0 = Binary64.nan) ∧
    (¬ visited states 1 → var_1 = Binary64.nan) ∧
    (Binary64.gt var_0 var_1 = true →
       lab = {[ 0 := "High Vol"; 1 := "Low Vol" ]}) ∧
    (Binary64.gt var_0 var_1 = false ∨ var_0 = var_1 ∨
     var_0 = Binary64.nan ∨ var_1 = Binary64.nan →
       lab = {[ 1 := "High Vol"; 0 := "Low Vol" ]}).
Proof.
  intros Hlen.
  exists (Binary64.var (restrict returns states 0)),
         (Binary64.var (restrict returns states 1)).
  eexists. split; [by apply binary64_state_var|].
  split; [by apply binary64_state_var|].
  split; [by apply binary64_regime_labels|].
  set (v0 := Binary64.var (restrict returns states 0)).
  set (v1 := Binary64.var (restrict returns states 1)).
  split; [|split; [|split; [|split]]].
  - destruct (Binary64.gt v0 v1); rewrite dom_insert_L, dom_singleton_L;
      set_solver.
  - intros Hk. unfold v0. by rewrite restrict_unvisited.
  - intros Hk. unfold v1. by rewrite restrict_unvisited.
  - by intros ->.
  - intros H.
    assert (Binary64.gt v0 v1 = false) as ->; [|done].
    destruct H as [H|[H|[H|H]]]; [done|rewrite H..].
    + apply gt_irrefl.
    + apply gt_nan_l.
    + apply gt_nan_r.
Qed.

Lemma binary64_labels_default_witness :
  let returns := Binary64.of_Z <$> [1; -1; 5; -5; 0] in
  Binary64.state_var returns [0; 0; 0; 0; 0] 0 = Ok (Binary64.of_Z 13) ∧
  Binary64.state_var returns [0; 0; 0; 0; 0] 1 = Ok Binary64.nan ∧
  Binary64.regime_labels returns [0; 0; 0; 0; 0]
  = Ok {[ 1 := "High Vol"; 0 := "Low Vol" ]}.
Proof.
  pose (returns := Binary64.of_Z <$> [1; -1; 5; -5; 0]).
  destruct (binary64_labels_default returns [0; 0; 0; 0; 0])
    as (var_0 & var_1 & lab & H0 & H1 & Hlab & _ & _ & Hnan & _ & Helse).
  - reflexivity.
  - assert (var_1 = Binary64.nan) as ->.
    { apply Hnan. unfold visited. by apply (bool_decide_unpack (_ ∉ _)). }
    assert (var_0 = Binary64.of_Z 13) as ->.
    { assert (Binary64.state_var returns [0; 0; 0; 0; 0] 0
              = Ok (Binary64.of_Z 13)) as H by (vm_compute; reflexivity).
      rewrite H in H0. by injection H0. }
    cbv zeta. split; [exact H0|]. split; [exact H1|].
    rewrite <- (Helse ltac:(by right; right; right)). exact Hlab.
Defined.
